(** * QRPost receiver page: a model of [src/app/page.tsx]

    The file embeds the [HomePage] component: its six [useState] cells, the
    functions it declares ([generateSession], [refreshSession],
    [clearReceivedContent], [openLink], [copyToClipboard]), the three
    [useEffect] hooks, and the handlers that the stream effect attaches to
    each [EventSource].  The browser objects the component talks to (event
    sources, timeouts, the interval, [fetch], [window.open], the toast list
    and the console) are kept in one explicit store, and every handler is a
    computation in a small state monad over that store.

    What the environment decides is an input of the model: the outcome of a
    [fetch], the payload of a stream message, the value of [Math.random()]
    and of [Date.now()], and the order in which events are dispatched. *)

From Stdlib Require Import NArith ZArith String Ascii List Bool Lia.
From stdpp Require Import base list.
Import ListNotations.
Local Open Scope string_scope.
Local Open Scope list_scope.

(** ** Data *)

(** An element of [receivedContent] (the object literal built in
    [onmessage]).  The TypeScript annotation restricts [type] to the two
    literals, but the handler copies [data.contentType] as it comes, so the
    field is a string here. *)
Module Item.
Record t := mk {
  id : string;
  content : string;
  type : string;
  timestamp : Z
}.
End Item.

(** The object obtained by [JSON.parse(event.data)].  The handler reads
    [type], [contentType] and [content]; [other] holds whatever further
    members the server put in the object (the handler never looks at them).
    A payload that does not parse makes the handler throw at its first line,
    before anything is written: such a message is no event of the model. *)
Module Data.
Record t := mk {
  type : string;
  contentType : string;
  content : string;
  other : list (string * string)
}.
End Data.

(** The JSON body of [POST /api/session]. *)
Module Resp.
Record t := mk {
  sessionId : string;
  qrCode : string
}.
End Resp.

(** The argument of [toast]. *)
Record Toast := mkToast {
  title : string;
  description : string;
  variant : option string
}.

(** The lines written with [console.log]:
    ["SSE connection opened"], ["SSE connection error:"],
    ["Reconnecting in <delay>ms..."], ["Heartbeat received"]. *)
Inductive LogLine :=
| LogOpened
| LogError
| LogReconnecting (delay : N)
| LogHeartbeat.

(** The six [useState] cells. *)
Record State := mkState {
  sessionId : string;
  qrCodeUrl : string;
  receivedContent : list Item.t;
  isConnected : bool;
  isGenerating : bool;
  connectionRetries : N
}.

(** One run of the stream effect (lines 75-143) creates a closure: the values
    of [sessionId] and [connectionRetries] of the render it belongs to, and
    the two [let] variables that [connectToSession], [onerror] and the
    cleanup function share. *)
Module Closure.
Record t := mk {
  sessionId : string;
  connectionRetries : N;
  eventSource : option nat;
  reconnectTimeout : option nat
}.
End Closure.

(** An [EventSource] object: its URL, the closure whose handlers it carries,
    and whether [close()] was called on it. *)
Record Source := mkSource {
  url : string;
  owner : nat;
  closed : bool
}.

Inductive TimerState := Pending | Fired | Cleared.

(** A timeout created by [setTimeout] in [onerror]; its callback is always
    the arrow function of lines 125-128, run in the closure [timer_owner]. *)
Record Timeout := mkTimeout {
  delay : N;
  timer_owner : nat;
  timer_state : TimerState
}.

(** The interval of the third effect: its period and the [sessionId] that
    the [refreshSession] it calls was rendered with. *)
Record Interval := mkInterval {
  period : N;
  interval_sessionId : string
}.

Inductive Method := GET | POST.

(** What React remembers about the two effects that have dependencies: the
    dependency values of their last run and what their cleanup refers to. *)
Record Hooks := mkHooks {
  closures : list Closure.t;
  stream_deps : string * N;
  stream_cleanup : option nat;
  refresh_deps : string;
  interval : option Interval
}.

(** The browser side. *)
Record Browser := mkBrowser {
  sources : list Source;
  timeouts : list Timeout;
  fetches : list (Method * string);
  windows : list (string * string);
  clipboard : list string;
  console : list LogLine;
  toasts : list Toast
}.

Record World := mkWorld {
  state : State;
  hooks : Hooks;
  browser : Browser
}.

(** ** Field updates *)

Definition with_sessionId v (s : State) :=
  mkState v (qrCodeUrl s) (receivedContent s) (isConnected s) (isGenerating s) (connectionRetries s).
Definition with_qrCodeUrl v (s : State) :=
  mkState (sessionId s) v (receivedContent s) (isConnected s) (isGenerating s) (connectionRetries s).
Definition with_receivedContent v (s : State) :=
  mkState (sessionId s) (qrCodeUrl s) v (isConnected s) (isGenerating s) (connectionRetries s).
Definition with_isConnected v (s : State) :=
  mkState (sessionId s) (qrCodeUrl s) (receivedContent s) v (isGenerating s) (connectionRetries s).
Definition with_isGenerating v (s : State) :=
  mkState (sessionId s) (qrCodeUrl s) (receivedContent s) (isConnected s) v (connectionRetries s).
Definition with_connectionRetries v (s : State) :=
  mkState (sessionId s) (qrCodeUrl s) (receivedContent s) (isConnected s) (isGenerating s) v.

Definition with_closures v (h : Hooks) :=
  mkHooks v (stream_deps h) (stream_cleanup h) (refresh_deps h) (interval h).
Definition with_stream_deps v (h : Hooks) :=
  mkHooks (closures h) v (stream_cleanup h) (refresh_deps h) (interval h).
Definition with_stream_cleanup v (h : Hooks) :=
  mkHooks (closures h) (stream_deps h) v (refresh_deps h) (interval h).
Definition with_refresh_deps v (h : Hooks) :=
  mkHooks (closures h) (stream_deps h) (stream_cleanup h) v (interval h).
Definition with_interval v (h : Hooks) :=
  mkHooks (closures h) (stream_deps h) (stream_cleanup h) (refresh_deps h) v.

Definition with_sources v (b : Browser) :=
  mkBrowser v (timeouts b) (fetches b) (windows b) (clipboard b) (console b) (toasts b).
Definition with_timeouts v (b : Browser) :=
  mkBrowser (sources b) v (fetches b) (windows b) (clipboard b) (console b) (toasts b).
Definition with_fetches v (b : Browser) :=
  mkBrowser (sources b) (timeouts b) v (windows b) (clipboard b) (console b) (toasts b).
Definition with_windows v (b : Browser) :=
  mkBrowser (sources b) (timeouts b) (fetches b) v (clipboard b) (console b) (toasts b).
Definition with_clipboard v (b : Browser) :=
  mkBrowser (sources b) (timeouts b) (fetches b) (windows b) v (console b) (toasts b).
Definition with_console v (b : Browser) :=
  mkBrowser (sources b) (timeouts b) (fetches b) (windows b) (clipboard b) v (toasts b).
Definition with_toasts v (b : Browser) :=
  mkBrowser (sources b) (timeouts b) (fetches b) (windows b) (clipboard b) (console b) v.

Definition with_eventSource v (c : Closure.t) :=
  Closure.mk (Closure.sessionId c) (Closure.connectionRetries c) v (Closure.reconnectTimeout c).
Definition with_reconnectTimeout v (c : Closure.t) :=
  Closure.mk (Closure.sessionId c) (Closure.connectionRetries c) (Closure.eventSource c) v.

Definition close_source (s : Source) := mkSource (url s) (owner s) true.
Definition clear_timer (t : Timeout) :=
  mkTimeout (delay t) (timer_owner t)
            match timer_state t with Pending => Cleared | st => st end.
Definition fire_timer (t : Timeout) := mkTimeout (delay t) (timer_owner t) Fired.

(** ** The state monad of the handlers *)

Definition M (A : Type) : Type := World -> A * World.

Definition ret {A} (a : A) : M A := fun w => (a, w).
Definition bind {A B} (m : M A) (k : A -> M B) : M B :=
  fun w => match m w with (a, w') => k a w' end.
Definition exec {A} (m : M A) (w : World) : World := snd (m w).

Declare Scope js_scope.
Delimit Scope js_scope with js.
Notation "x <- m ;; k" := (bind m (fun x => k))
  (at level 100, m at next level, k at level 200, right associativity, only parsing) : js_scope.
Notation "m ;; k" := (bind m (fun _ => k))
  (at level 100, k at level 200, right associativity, only parsing) : js_scope.
Local Open Scope js_scope.

Definition skip : M unit := ret tt.
Definition when (b : bool) (m : M unit) : M unit := if b then m else skip.

Definition modify_state (f : State -> State) : M unit :=
  fun w => (tt, mkWorld (f (state w)) (hooks w) (browser w)).
Definition modify_hooks (f : Hooks -> Hooks) : M unit :=
  fun w => (tt, mkWorld (state w) (f (hooks w)) (browser w)).
Definition modify_browser (f : Browser -> Browser) : M unit :=
  fun w => (tt, mkWorld (state w) (hooks w) (f (browser w))).
Definition get_state : M State := fun w => (state w, w).
Definition get_hooks : M Hooks := fun w => (hooks w, w).

(** The setters returned by [useState].  [setReceivedContent] and
    [setConnectionRetries] are also called with an updater function, so they
    take one; a plain value [v] is passed as [fun _ => v].  No handler reads
    a cell after it has set it (handlers read the values their closure
    captured), so applying an update at once or when React renders next gives
    the same result. *)
Definition setSessionId (v : string) := modify_state (with_sessionId v).
Definition setQrCodeUrl (v : string) := modify_state (with_qrCodeUrl v).
Definition setReceivedContent (f : list Item.t -> list Item.t) :=
  modify_state (fun s => with_receivedContent (f (receivedContent s)) s).
Definition setIsConnected (v : bool) := modify_state (with_isConnected v).
Definition setIsGenerating (v : bool) := modify_state (with_isGenerating v).
Definition setConnectionRetries (f : N -> N) :=
  modify_state (fun s => with_connectionRetries (f (connectionRetries s)) s).

(** Browser primitives. *)
Definition toast (t : Toast) : M unit :=
  modify_browser (fun b => with_toasts (toasts b ++ [t]) b).
Definition console_log (l : LogLine) : M unit :=
  modify_browser (fun b => with_console (console b ++ [l]) b).
Definition fetch (m : Method) (u : string) : M unit :=
  modify_browser (fun b => with_fetches (fetches b ++ [(m, u)]) b).
Definition window_open (u target : string) : M unit :=
  modify_browser (fun b => with_windows (windows b ++ [(u, target)]) b).
Definition writeText (text : string) : M unit :=
  modify_browser (fun b => with_clipboard (clipboard b ++ [text]) b).

Definition newEventSource (c : nat) (u : string) : M nat :=
  fun w => (length (sources (browser w)),
            exec (modify_browser (fun b => with_sources (sources b ++ [mkSource u c false]) b)) w).
Definition close (es : nat) : M unit :=
  modify_browser (fun b => with_sources (alter close_source es (sources b)) b).
Definition setTimeout (c : nat) (d : N) : M nat :=
  fun w => (length (timeouts (browser w)),
            exec (modify_browser (fun b => with_timeouts (timeouts b ++ [mkTimeout d c Pending]) b)) w).
Definition clearTimeout (t : nat) : M unit :=
  modify_browser (fun b => with_timeouts (alter clear_timer t (timeouts b)) b).

(** Closures of the stream effect. *)
Definition new_closure (sid : string) (retries : N) : M nat :=
  fun w => (length (closures (hooks w)),
            exec (modify_hooks (fun h =>
                    with_closures (closures h ++ [Closure.mk sid retries None None]) h)) w).
Definition with_closure (c : nat) (k : Closure.t -> M unit) : M unit :=
  fun w => match closures (hooks w) !! c with
           | Some cl => k cl w
           | None => (tt, w)
           end.
Definition assign_eventSource (c : nat) (v : option nat) : M unit :=
  modify_hooks (fun h => with_closures (alter (with_eventSource v) c (closures h)) h).
Definition assign_reconnectTimeout (c : nat) (v : option nat) : M unit :=
  modify_hooks (fun h => with_closures (alter (with_reconnectTimeout v) c (closures h)) h).

(** [!s] on a string. *)
Definition falsy (s : string) : bool := String.eqb s "".

(** What a [fetch] (followed by the reading of its body) comes to: a value,
    or an exception caught by the surrounding [try]. *)
Inductive Outcome (A : Type) :=
| Resolved (a : A)
| Rejected.
Arguments Resolved {A} a.
Arguments Rejected {A}.

(** ** The functions of the component *)

(** [generateSession] (lines 26-44) has one [await] chain: what runs before
    the request is sent, and what runs once the response body is there (or
    once the request has failed).  Both parts are synchronous blocks. *)
Definition generateSession_begin : M unit :=
  setIsGenerating true ;;
  fetch POST "/api/session".

Definition generateSession_settle (o : Outcome Resp.t) : M unit :=
  (match o with
   | Resolved data =>
       setSessionId (Resp.sessionId data) ;;
       setQrCodeUrl (Resp.qrCode data) ;;
       setReceivedContent (fun _ => []) ;;
       setConnectionRetries (fun _ => 0%N)
   | Rejected =>
       toast {| title := "Error";
                description := "Failed to generate session";
                variant := Some "destructive" |}
   end) ;;
  setIsGenerating false.

Definition generateSession (o : Outcome Resp.t) : M unit :=
  generateSession_begin ;;
  generateSession_settle o.

Definition session_refreshed : Toast :=
  {| title := "Session Refreshed";
     description := "Your session was refreshed due to expiration";
     variant := None |}.

(** [refreshSession] (lines 46-61), for the [sessionId] of the render it was
    created in.  [v] is the outcome of the validation request ([response.ok]
    when it resolves), [o] the outcome of the request that [generateSession]
    makes when it is called. *)
Definition refreshSession (sid : string) (v : Outcome bool) (o : Outcome Resp.t) : M unit :=
  if falsy sid then skip
  else
    fetch GET ("/api/session/" ++ sid) ;;
    match v with
    | Resolved ok =>
        when (negb ok) (generateSession o ;; toast session_refreshed)
    | Rejected => generateSession o
    end.

(** The same function cut at its [await]s, for the event loop: the part up
    to the validation request, and the part that runs when that request
    settles and ends at the request of [generateSession]. *)
Definition refreshSession_begin (sid : string) : M unit :=
  when (negb (falsy sid)) (fetch GET ("/api/session/" ++ sid)).

Definition refreshSession_settle (v : Outcome bool) : M unit :=
  match v with
  | Resolved ok => when (negb ok) generateSession_begin
  | Rejected => generateSession_begin
  end.

(** [clearReceivedContent] (lines 63-69). *)
Definition clearReceivedContent : M unit :=
  setReceivedContent (fun _ => []) ;;
  toast {| title := "Cleared";
           description := "Received content cleared";
           variant := None |}.

(** [copyToClipboard] (lines 152-166); [ok] says whether
    [navigator.clipboard.writeText] resolved. *)
Definition copyToClipboard (text : string) (ok : bool) : M unit :=
  if ok then
    writeText text ;;
    toast {| title := "Copied! 📋";
             description := "Content copied to clipboard";
             variant := None |}
  else
    toast {| title := "Error";
             description := "Failed to copy to clipboard";
             variant := Some "destructive" |}.

(** [openLink] (lines 168-171). *)
Definition openLink (url : string) : M unit :=
  let fullUrl := if String.prefix "http" url then url else ("https://" ++ url)%string in
  window_open fullUrl "_blank".

(** ** The stream effect (lines 75-143) *)

(** [connectToSession], in the closure [c]. *)
Definition connectToSession (c : nat) : M unit :=
  with_closure c (fun cl =>
    (match Closure.eventSource cl with
     | Some es => close es
     | None => skip
     end) ;;
    es <- newEventSource c ("/api/listen/" ++ Closure.sessionId cl) ;;
    assign_eventSource c (Some es)).

(** [eventSource.onopen]. *)
Definition onopen (c : nat) : M unit :=
  console_log LogOpened ;;
  setIsConnected true ;;
  setConnectionRetries (fun _ => 0%N).

(** [Math.random().toString(36).substr(2, 9)]: [random] is the string that
    [Math.random().toString(36)] returned (the rendering of a double in base
    36 is left to the environment); [substr(2, 9)] is [String.substring]. *)
Definition display_id (random : string) : string := String.substring 2 9 random.

(** [eventSource.onmessage]; [random] and [now] are what [Math.random()]
    (rendered in base 36) and [Date.now()] return during the call. *)
Definition onmessage (c : nat) (random : string) (now : Z) (data : Data.t) : M unit :=
  if String.eqb (Data.type data) "content" then
    let newItem :=
      {| Item.id := display_id random;
         Item.content := Data.content data;
         Item.type := Data.contentType data;
         Item.timestamp := now |} in
    setReceivedContent (fun prev => newItem :: prev) ;;
    toast {| title := "Content Received! 🎉";
             description := "New " ++ Data.contentType data ++ " received from sender device";
             variant := None |}
  else if String.eqb (Data.type data) "heartbeat" then
    console_log LogHeartbeat
  else skip.

(** [Math.min(1000 * Math.pow(2, connectionRetries), 30000)].  The counter
    only ever holds natural numbers (it starts at 0 and is reset to 0 or
    incremented), on which [Math.pow(2, _)] is the exact power. *)
Definition backoff (retries : N) : N := N.min (1000 * 2 ^ retries) 30000.

(** [eventSource.onerror], in the closure [c]: the test and the delay use
    the [connectionRetries] that the closure captured. *)
Definition onerror (c : nat) : M unit :=
  console_log LogError ;;
  setIsConnected false ;;
  with_closure c (fun cl =>
    if (Closure.connectionRetries cl <? 5)%N then
      let delay := backoff (Closure.connectionRetries cl) in
      console_log (LogReconnecting delay) ;;
      t <- setTimeout c delay ;;
      assign_reconnectTimeout c (Some t)
    else skip).

(** The callback given to [setTimeout] (lines 125-128), in the closure [c]. *)
Definition reconnect (c : nat) : M unit :=
  setConnectionRetries (fun prev => (prev + 1)%N) ;;
  connectToSession c.

(** The body of the effect. *)
Definition stream_effect : M unit :=
  s <- get_state ;;
  if falsy (sessionId s) then modify_hooks (with_stream_cleanup None)
  else
    c <- new_closure (sessionId s) (connectionRetries s) ;;
    connectToSession c ;;
    modify_hooks (with_stream_cleanup (Some c)).

(** The function the effect returns (lines 135-142): it reads the two
    variables of its closure as they are when it runs. *)
Definition stream_effect_cleanup (c : nat) : M unit :=
  with_closure c (fun cl =>
    (match Closure.eventSource cl with
     | Some es => close es
     | None => skip
     end) ;;
    (match Closure.reconnectTimeout cl with
     | Some t => clearTimeout t
     | None => skip
     end)).

(** ** The refresh effect (lines 145-150) *)

Definition refresh_effect : M unit :=
  s <- get_state ;;
  if falsy (sessionId s) then modify_hooks (with_interval None)
  else modify_hooks (with_interval (Some (mkInterval (30 * 60 * 1000) (sessionId s)))).

(** [clearInterval(interval)]. *)
Definition refresh_effect_cleanup : M unit :=
  modify_hooks (with_interval None).

(** ** Rendering and effects after a render *)

(** After the handler of an event has run (React applies the updates a
    handler made together), React renders the component and, for each effect
    one of whose dependencies changed, calls the cleanup function of its last
    run and then runs it again.  The dependencies of the
    stream effect are [sessionId], [connectionRetries] and [toast]; the last
    one comes from [@/hooks/use-toast], which is not part of the sources at
    hand, and is taken to be the same function at every render.  The two
    effects touch different objects, so the order between them is
    immaterial. *)
Definition deps_eqb (a b : string * N) : bool :=
  String.eqb (fst a) (fst b) && N.eqb (snd a) (snd b).

Definition stream_effect_commit : M unit :=
  s <- get_state ;;
  h <- get_hooks ;;
  when (negb (deps_eqb (stream_deps h) (sessionId s, connectionRetries s)))
    ((match stream_cleanup h with
      | Some c => stream_effect_cleanup c
      | None => skip
      end) ;;
     stream_effect ;;
     modify_hooks (with_stream_deps (sessionId s, connectionRetries s))).

Definition refresh_effect_commit : M unit :=
  s <- get_state ;;
  h <- get_hooks ;;
  when (negb (String.eqb (refresh_deps h) (sessionId s)))
    (refresh_effect_cleanup ;;
     refresh_effect ;;
     modify_hooks (with_refresh_deps (sessionId s))).

Definition commit : M unit :=
  stream_effect_commit ;;
  refresh_effect_commit.

(** What the JSX shows of the state: the badge of the header (lines
    192-211) and one row per received item (lines 333-396). *)
Inductive Badge :=
| Connected
| Reconnecting (retries : N)
| Waiting.

Definition badge (s : State) : Badge :=
  if isConnected s then Connected
  else if (0 <? connectionRetries s)%N then Reconnecting (connectionRetries s)
  else Waiting.

Record Row := mkRow {
  key : string;
  label : string;
  body : string;
  copy_button : string;
  open_button : option string
}.

Definition render_item (item : Item.t) : Row :=
  {| key := Item.id item;
     label := if String.eqb (Item.type item) "link" then "🔗 Link" else "📝 Text";
     body := Item.content item;
     copy_button := Item.content item;
     open_button := if String.eqb (Item.type item) "link"
                    then Some (Item.content item) else None |}.

Definition rows (s : State) : list Row := map render_item (receivedContent s).

(** ** Events *)

Inductive Event :=
| NewSessionClick
| RefreshClick
| IntervalTick
| ValidationSettled (v : Outcome bool)
| SessionSettled (o : Outcome Resp.t) (announce : bool)
| ClearClick
| CopyClick (k : nat) (ok : bool)
| OpenClick (k : nat)
| StreamOpen (es : nat)
| StreamMessage (es : nat) (random : string) (now : Z) (data : Data.t)
| StreamError (es : nat)
| TimeoutFire (t : nat).

(** An [EventSource] dispatches to the handlers of the closure that created
    it, and dispatches nothing once it is closed. *)
Definition on_source (es : nat) (k : nat -> M unit) : M unit :=
  fun w => match sources (browser w) !! es with
           | Some s => if closed s then (tt, w) else k (owner s) w
           | None => (tt, w)
           end.

(** A timeout runs its callback once, unless it was cleared before. *)
Definition on_timeout (t : nat) : M unit :=
  fun w => match timeouts (browser w) !! t with
           | Some tm =>
               match timer_state tm with
               | Pending =>
                   (modify_browser (fun b =>
                      with_timeouts (alter fire_timer t (timeouts b)) b) ;;
                    reconnect (timer_owner tm)) w
               | _ => (tt, w)
               end
           | None => (tt, w)
           end.

Definition on_row (k : nat) (f : Row -> M unit) : M unit :=
  s <- get_state ;;
  match rows s !! k with
  | Some r => f r
  | None => skip
  end.

(** The handler of each event.  An asynchronous function is cut at its
    [await]s: [RefreshClick] and [IntervalTick] run [refreshSession] up to its
    request, [ValidationSettled] resumes it when that request settles,
    [NewSessionClick] starts [generateSession] and [SessionSettled] resumes it
    ([announce] tells that the caller is the branch of [refreshSession] that
    shows the toast afterwards).  The two buttons are disabled while
    [isGenerating], the clear button exists only when the list is not empty,
    and the open button only on rows of links. *)
Definition handle (e : Event) : M unit :=
  match e with
  | NewSessionClick =>
      s <- get_state ;;
      when (negb (isGenerating s)) generateSession_begin
  | RefreshClick =>
      s <- get_state ;;
      when (negb (isGenerating s)) (refreshSession_begin (sessionId s))
  | IntervalTick =>
      h <- get_hooks ;;
      match interval h with
      | Some i => refreshSession_begin (interval_sessionId i)
      | None => skip
      end
  | ValidationSettled v => refreshSession_settle v
  | SessionSettled o announce =>
      generateSession_settle o ;;
      when announce (toast session_refreshed)
  | ClearClick =>
      s <- get_state ;;
      match receivedContent s with
      | [] => skip
      | _ :: _ => clearReceivedContent
      end
  | CopyClick k ok => on_row k (fun r => copyToClipboard (copy_button r) ok)
  | OpenClick k =>
      on_row k (fun r =>
        match open_button r with
        | Some target => openLink target
        | None => skip
        end)
  | StreamOpen es => on_source es onopen
  | StreamMessage es random now data =>
      on_source es (fun c => onmessage c random now data)
  | StreamError es => on_source es onerror
  | TimeoutFire t => on_timeout t
  end.

Definition step (w : World) (e : Event) : World := exec (handle e ;; commit) w.

Definition run (w : World) (es : list Event) : World := fold_left step es w.

(** The first render: the cells hold their initial values, the first effect
    calls [generateSession], and the other two return at their first line
    because [sessionId] is empty. *)
Definition initial_state : State := mkState "" "" [] false false 0.

Definition unmounted : World :=
  mkWorld initial_state
          (mkHooks [] ("", 0%N) None "" None)
          (mkBrowser [] [] [] [] [] [] []).

Definition mount : World :=
  exec (generateSession_begin ;; stream_effect ;; refresh_effect) unmounted.

Inductive reachable : World -> Prop :=
| reachable_mount : reachable mount
| reachable_step w e : reachable w -> reachable (step w e).

(** The source held by the closure of the effect's last run, if any. *)
Definition live_source (w : World) : option nat :=
  match stream_cleanup (hooks w) with
  | Some c =>
      match closures (hooks w) !! c with
      | Some cl => Closure.eventSource cl
      | None => None
      end
  | None => None
  end.

Definition pending_timeouts (w : World) : list Timeout :=
  List.filter (fun t => match timer_state t with Pending => true | _ => false end)
         (timeouts (browser w)).

Definition open_sources (w : World) : list Source :=
  List.filter (fun s => negb (closed s)) (sources (browser w)).

(** * Vocabulary of the statements *)

(** ** Observations of a store *)

(** The two cells the stream effect depends on. *)
Definition deps (w : World) : string * N :=
  (sessionId (state w), connectionRetries (state w)).

(** What the page has shown, logged, requested, opened and copied. *)
Definition outputs (w : World) :=
  (toasts (browser w), console (browser w), fetches (browser w),
   windows (browser w), clipboard (browser w)).

(** What React recorded about the two effects: their last dependencies, the
    cleanup it will call, and the interval. *)
Definition wiring (w : World) :=
  (stream_deps (hooks w), stream_cleanup (hooks w), refresh_deps (hooks w),
   interval (hooks w)).

(** The sources, and the closures up to their [reconnectTimeout] variable. *)
Definition forget (cl : Closure.t) : Closure.t := with_reconnectTimeout None cl.

Definition plumbing (w : World) :=
  (sources (browser w), map forget (closures (hooks w))).

(** The URL of the template literal in [connectToSession]. *)
Definition listen_url (sid : string) : string := ("/api/listen/" ++ sid)%string.

(** ** Frames

    [keeps R m]: running [m] relates the store before to the store after by
    [R].  For a reflexive and transitive [R] this is closed under sequencing,
    so the frame of a handler is read off the frames of the primitives it
    calls.  [same f] is the relation "the observation [f] is unchanged". *)
Definition keeps {A} (R : World -> World -> Prop) (m : M A) : Prop :=
  forall w, R w (snd (m w)).

Definition same {X} (f : World -> X) : World -> World -> Prop :=
  fun w w' => f w' = f w.

(** ** Settled stores

    A store is settled when the effects have caught up with the cells: the
    recorded dependencies are the current values, the stream effect holds an
    open source for the current session id in a closure that captured the
    current retry counter (or nothing when there is no session id), and the
    refresh interval is set exactly when there is a session id. *)
Definition stream_ready (w : World) : Prop :=
  match stream_cleanup (hooks w) with
  | None => sessionId (state w) = ""
  | Some c =>
      sessionId (state w) <> "" /\
      exists es rt,
        closures (hooks w) !! c =
          Some (Closure.mk (sessionId (state w)) (connectionRetries (state w)) (Some es) rt) /\
        sources (browser w) !! es =
          Some (mkSource (listen_url (sessionId (state w))) c false)
  end.

Definition interval_ready (w : World) : Prop :=
  interval (hooks w) =
    if falsy (sessionId (state w)) then None
    else Some (mkInterval 1800000 (sessionId (state w))).

Record settled (w : World) : Prop := {
  settled_stream_deps : stream_deps (hooks w) = deps w;
  settled_refresh_deps : refresh_deps (hooks w) = sessionId (state w);
  settled_stream : stream_ready w;
  settled_interval : interval_ready w
}.

(** ** Pieces of the effects and of the handlers, named for the proofs *)

(** The cleanup that a render calls when the dependencies changed. *)
Definition last_cleanup (w : World) : M unit :=
  match stream_cleanup (hooks w) with
  | Some c => stream_effect_cleanup c
  | None => skip
  end.

(** What [eventSource.close()] and [clearTimeout(reconnectTimeout)] do to the
    tables, for the values the two variables of a closure hold. *)
Definition close_held (cl : Closure.t) (l : list Source) : list Source :=
  match Closure.eventSource cl with
  | Some es => alter close_source es l
  | None => l
  end.

Definition clear_held (cl : Closure.t) (l : list Timeout) : list Timeout :=
  match Closure.reconnectTimeout cl with
  | Some t => alter clear_timer t l
  | None => l
  end.

(** The bookkeeping of [on_timeout]: the timeout is spent. *)
Definition fire (t : nat) : M unit :=
  modify_browser (fun b => with_timeouts (alter fire_timer t (timeouts b)) b).

(** ** Messages *)

(** A message as the handler sees it: the parsed payload together with what
    [Math.random()] and [Date.now()] return while it is handled. *)
Record Delivery := mkDelivery {
  random_of : string;
  now_of : Z;
  data_of : Data.t
}.

Definition deliver (es : nat) (m : Delivery) : Event :=
  StreamMessage es (random_of m) (now_of m) (data_of m).

(** The [newItem] literal of lines 98-103. *)
Definition received (m : Delivery) : Item.t :=
  {| Item.id := display_id (random_of m);
     Item.content := Data.content (data_of m);
     Item.type := Data.contentType (data_of m);
     Item.timestamp := now_of m |}.

(** Strings of the digits [0-9a-z]. *)
Definition base36_digit (a : ascii) : bool :=
  let n := nat_of_ascii a in
  ((48 <=? n)%nat && (n <=? 57)%nat) || ((97 <=? n)%nat && (n <=? 122)%nat).

Fixpoint base36 (s : string) : bool :=
  match s with
  | EmptyString => true
  | String a s' => base36_digit a && base36 s'
  end.

(** ** Event sequences *)

(** The events that make one call of [refreshSession] from the interval:
    the tick, the validation request settling, and (when the session is not
    valid) the creation request settling. *)
Definition refresh_events (v : Outcome bool) (o : Outcome Resp.t) : list Event :=
  IntervalTick :: ValidationSettled v ::
  match v with
  | Resolved true => []
  | Resolved false => [SessionSettled o true]
  | Rejected => [SessionSettled o false]
  end.

(** ** Sample stores *)

Definition cleared : Toast :=
  {| title := "Cleared"; description := "Received content cleared"; variant := None |}.

(** The page after its first session arrived: session ["k3v9"], source 0
    open in closure 0, counter 0. *)
Definition paired : World :=
  run mount [SessionSettled (Resolved (Resp.mk "k3v9" "https://qr.example/k3v9")) false].

Definition with_link : World :=
  run paired [StreamMessage 0 "0.4fzyo82mvyr" 1700000000000
                (Data.mk "content" "link" "example.com/a" [])].

Definition two_notes : list Delivery :=
  [mkDelivery "0.8dk2l0qpx7c" 1700000000000 (Data.mk "content" "text" "first" [("id", "A")]);
   mkDelivery "0.q1w9z" 1700000005000 (Data.mk "content" "link" "https://b.example" [("id", "A")])].

(** The server is unreachable, and a source reports an error about every
    7 s (the browser reconnects a source that [onerror] leaves open: each
    attempt fails after a few seconds and is repeated a few seconds later).
    With delays of 1, 2 and 4 s the timeout fires before a second error; with
    8 s there are two errors before the first timeout fires, with 16 s three.
    The counter goes from 0 to 5. *)
Definition five_attempts : list Event :=
  [StreamError 0; TimeoutFire 0;
   StreamError 2; TimeoutFire 1;
   StreamError 4; TimeoutFire 2;
   StreamError 6; StreamError 6; TimeoutFire 3;
   StreamError 8; StreamError 8; StreamError 8; TimeoutFire 5].

Definition exhausted : World := run paired five_attempts.

(** The server is away for a few seconds only.  With the counter at 3 (a
    delay of 8 s) the source reports two errors, one for the lost connection
    and one for the browser's own failed reconnection, and then opens again
    before the first of the two timeouts has fired. *)
Definition short_outage : list Event :=
  [StreamError 0; TimeoutFire 0;
   StreamError 2; TimeoutFire 1;
   StreamError 4; TimeoutFire 2;
   StreamError 6; StreamError 6; StreamOpen 6; TimeoutFire 3].

Definition after_outage : World := run paired short_outage.

(** ** Events by what they may write *)

(** The events whose handler calls [setSessionId] and [setQrCodeUrl]. *)
Definition replaces_session (e : Event) : bool :=
  match e with
  | SessionSettled (Resolved _) _ => true
  | _ => false
  end.

(** The events whose handler calls [setReceivedContent]. *)
Definition writes_list (e : Event) : bool :=
  match e with
  | StreamMessage _ _ _ _ => true
  | ClearClick => true
  | _ => replaces_session e
  end.

(** ** Toasts of the failure branches *)

Definition generate_failed : Toast :=
  {| title := "Error";
     description := "Failed to generate session";
     variant := Some "destructive" |}.

Definition copied : Toast :=
  {| title := "Copied! 📋";
     description := "Content copied to clipboard";
     variant := None |}.

Definition copy_failed : Toast :=
  {| title := "Error";
     description := "Failed to copy to clipboard";
     variant := Some "destructive" |}.

(** ** More sample stores *)

(** One failed connection and one retry: counter 1, source 2 held. *)
Definition retried_once : World := run paired [StreamError 0; TimeoutFire 0].

(** ** Delays *)

(** The delays that [onerror] can pass to [setTimeout]. *)
Definition scheduled_delay (tm : Timeout) : Prop :=
  In (delay tm) [1000; 2000; 4000; 8000; 16000]%N.

Definition delays_kept (w w' : World) : Prop :=
  Forall scheduled_delay (timeouts (browser w)) ->
  Forall scheduled_delay (timeouts (browser w')).

(** ** One failure at a time *)

(** An environment in which no source reports an error while a timeout is
    still pending: every reported failure is followed by the retry that was
    scheduled for it before the next failure is reported. *)
Definition polite (w : World) (e : Event) : Prop :=
  match e with
  | StreamError _ => pending_timeouts w = []
  | _ => True
  end.

Inductive reachable_politely : World -> Prop :=
| politely_mount : reachable_politely mount
| politely_step w e : reachable_politely w -> polite w e -> reachable_politely (step w e).

(** A tidy store: settled, the counter within its bound, no open source
    besides the one the effect holds, and no pending timeout besides the one
    that the [reconnectTimeout] variable of the effect's closure holds (and
    then the counter is below 5). *)
Record tidy (w : World) : Prop := {
  tidy_settled : settled w;
  tidy_counter : (connectionRetries (state w) <= 5)%N;
  tidy_sources :
    forall es s, sources (browser w) !! es = Some s -> closed s = false ->
                 live_source w = Some es;
  tidy_timeouts :
    forall t tm, timeouts (browser w) !! t = Some tm -> timer_state tm = Pending ->
                 (connectionRetries (state w) < 5)%N /\
                 exists c cl, stream_cleanup (hooks w) = Some c /\
                              closures (hooks w) !! c = Some cl /\
                              Closure.reconnectTimeout cl = Some t /\
                              timer_owner tm = c
}.

Definition is_pending (tm : Timeout) : bool :=
  match timer_state tm with Pending => true | _ => false end.

(** What a handler leaves alone when it only writes cells and shows things. *)
Definition machinery (w : World) :=
  (hooks w, sources (browser w), timeouts (browser w)).

Fixpoint polite_run (w : World) (es : list Event) : Prop :=
  match es with
  | [] => True
  | e :: es' => polite w e /\ polite_run (step w e) es'
  end.

(** Five failures, each followed by its retry, and a sixth failure. *)
Definition gave_up : World :=
  run paired [StreamError 0; TimeoutFire 0; StreamError 2; TimeoutFire 1;
              StreamError 4; TimeoutFire 2; StreamError 6; TimeoutFire 3;
              StreamError 8; TimeoutFire 4; StreamError 10].

(** ** What leaves the page *)

(** A window opened in a new tab on a URL that starts with ["http"]. *)
Definition safe_window (p : string * string) : Prop :=
  String.prefix "http" (fst p) = true /\ snd p = "_blank".

(** The two [fetch] requests of the component: the creation of a session,
    and the validation of a session id that is not empty. *)
Definition known_request (r : Method * string) : Prop :=
  r = (POST, "/api/session") \/
  exists sid, sid <> "" /\ r = (GET, ("/api/session/" ++ sid)%string).

Definition leaves_kept (w w' : World) : Prop :=
  (Forall safe_window (windows (browser w)) -> Forall safe_window (windows (browser w'))) /\
  (Forall known_request (fetches (browser w)) -> Forall known_request (fetches (browser w'))).

(** The stream request of the component: an [EventSource] on the listen
    route of a session id that is not empty. *)
Definition known_stream (s : Source) : Prop :=
  exists sid, sid <> "" /\ url s = ("/api/listen/" ++ sid)%string.

(** A run of the stream effect that got as far as creating its closure
    captured a session id that is not empty. *)
Definition named_closure (cl : Closure.t) : Prop := Closure.sessionId cl <> "".

Definition streams_known (w : World) : Prop :=
  Forall named_closure (closures (hooks w)) /\ Forall known_stream (sources (browser w)).

Definition streams_kept (w w' : World) : Prop := streams_known w -> streams_known w'.

(** * Properties *)

(** ** Running computations *)

Lemma exec_bind {A B} (m : M A) (k : A -> M B) (w : World) :
  exec (bind m k) w = exec (k (fst (m w))) (snd (m w)).
Proof. unfold exec, bind. destruct (m w); reflexivity. Qed.

Lemma exec_seq {A B} (m : M A) (k : M B) (w : World) :
  exec (m ;; k) w = exec k (exec m w).
Proof. apply exec_bind. Qed.

Lemma step_unfold (w : World) (e : Event) :
  step w e = exec commit (exec (handle e) w).
Proof. unfold step. apply exec_seq. Qed.

Lemma run_cons (w : World) (e : Event) (es : list Event) :
  run w (e :: es) = run (step w e) es.
Proof. reflexivity. Qed.

Ltac unfold_effects :=
  unfold commit, stream_effect_commit, refresh_effect_commit, stream_effect,
    stream_effect_cleanup, refresh_effect, refresh_effect_cleanup,
    connectToSession in *.

(** ** Frames *)

#[local] Instance same_preorder {X} (f : World -> X) : PreOrder (same f).
Proof.
  split.
  - intros w. reflexivity.
  - intros w1 w2 w3 H12 H23. unfold same in *. congruence.
Qed.

Section Keeps.
Context (R : World -> World -> Prop) `{!PreOrder R}.

Lemma keeps_ret {A} (a : A) : keeps R (ret a).
Proof. intros w. simpl. reflexivity. Qed.

Lemma keeps_bind {A B} (m : M A) (k : A -> M B) :
  keeps R m -> (forall a, keeps R (k a)) -> keeps R (bind m k).
Proof.
  intros Hm Hk w. unfold bind. specialize (Hm w).
  destruct (m w) as [a w1]. simpl in Hm.
  etransitivity; [exact Hm | apply Hk].
Qed.

Lemma keeps_when (b : bool) (m : M unit) : keeps R m -> keeps R (when b m).
Proof. intros Hm. destruct b; [exact Hm | apply keeps_ret]. Qed.

Lemma keeps_get_state : keeps R get_state.
Proof. intros w. simpl. reflexivity. Qed.

Lemma keeps_get_hooks : keeps R get_hooks.
Proof. intros w. simpl. reflexivity. Qed.

Lemma keeps_with_closure (c : nat) (k : Closure.t -> M unit) :
  (forall cl, keeps R (k cl)) -> keeps R (with_closure c k).
Proof.
  intros Hk w. unfold with_closure.
  destruct (closures (hooks w) !! c); [apply Hk | simpl; reflexivity].
Qed.

Lemma keeps_on_source (es : nat) (k : nat -> M unit) :
  (forall c, keeps R (k c)) -> keeps R (on_source es k).
Proof.
  intros Hk w. unfold on_source.
  destruct (sources (browser w) !! es) as [s|]; [|simpl; reflexivity].
  destruct (closed s); [simpl; reflexivity | apply Hk].
Qed.

Lemma keeps_on_row (k : nat) (f : Row -> M unit) :
  (forall r, keeps R (f r)) -> keeps R (on_row k f).
Proof.
  intros Hf. unfold on_row. apply keeps_bind; [apply keeps_get_state|].
  intros s. destruct (rows s !! k); [apply Hf | apply keeps_ret].
Qed.

Lemma keeps_exec {A} (m : M A) (w : World) : keeps R m -> R w (exec m w).
Proof. intros Hm. apply Hm. Qed.
End Keeps.

Lemma same_exec {A X} (f : World -> X) (m : M A) (w : World) :
  keeps (same f) m -> f (exec m w) = f w.
Proof. intros Hm. apply Hm. Qed.

Ltac head_of t :=
  lazymatch t with
  | ?f _ => head_of f
  | _ => t
  end.

(** Splits a frame goal along the structure of the computation; what is left
    are the primitives, which are settled by computation. *)
Ltac frame_step :=
  lazymatch goal with
  | |- PreOrder _ => typeclasses eauto
  | |- keeps _ (match ?x with _ => _ end) => destruct x
  | |- keeps _ ?m =>
      first
        [ apply keeps_ret
        | apply keeps_get_state
        | apply keeps_get_hooks
        | apply keeps_when
        | apply keeps_with_closure
        | apply keeps_on_source
        | apply keeps_on_row
        | apply keeps_bind
        | intros ?; reflexivity
        | let h := head_of m in progress unfold h ]
  | |- forall _, _ => intros ?
  end.

Ltac frame := repeat frame_step.

(** Rendering and running effects does not write any [useState] cell, and
    shows, logs, fetches and opens nothing. *)
Lemma commit_keeps_state : keeps (same state) commit.
Proof. unfold_effects. frame. Qed.

Lemma commit_state (w : World) : state (exec commit w) = state w.
Proof. apply commit_keeps_state. Qed.

Lemma commit_keeps_outputs : keeps (same outputs) commit.
Proof. unfold_effects. frame. Qed.

Lemma step_state (w : World) (e : Event) :
  state (step w e) = state (exec (handle e) w).
Proof. rewrite step_unfold. apply commit_state. Qed.

Lemma step_outputs (w : World) (e : Event) :
  outputs (step w e) = outputs (exec (handle e) w).
Proof. rewrite step_unfold. apply commit_keeps_outputs. Qed.

(** ** [clearReceivedContent] *)

(** C10.  [clearReceivedContent] empties the received-content list and
    leaves the session id, the QR payload, the connection flag, the
    generating flag and the retry counter as they were; it touches no effect,
    source or timeout, and besides the list it only shows its "Cleared"
    toast.  The same holds for the state after a click on the clear button
    (clicking renders, and rendering writes no cell). *)
Theorem clearReceivedContent_only_empties_list (w : World) :
  let w' := exec clearReceivedContent w in
  receivedContent (state w') = [] /\
  sessionId (state w') = sessionId (state w) /\
  qrCodeUrl (state w') = qrCodeUrl (state w) /\
  isConnected (state w') = isConnected (state w) /\
  isGenerating (state w') = isGenerating (state w) /\
  connectionRetries (state w') = connectionRetries (state w) /\
  hooks w' = hooks w /\
  browser w' = with_toasts (toasts (browser w) ++ [cleared]) (browser w) /\
  state (step w ClearClick) = with_receivedContent [] (state w).
Proof.
  repeat split.
  rewrite step_state. destruct w as [[sid qr rc ic ig cr] h b].
  destruct rc; reflexivity.
Qed.

(** ** [generateSession] *)

(** C9.  A [generateSession] call whose request succeeds installs the
    session id and the QR payload of the response, empties the
    received-content list and sets the retry counter to 0, whatever these
    held before; it ends with [isGenerating] false and shows no toast.  The
    second part states the same for the block that runs when the response
    arrives, from any store: events handled while the request was in flight
    do not change the outcome. *)
Theorem generateSession_success_resets (w : World) (data : Resp.t) :
  (let w' := exec (generateSession (Resolved data)) w in
   sessionId (state w') = Resp.sessionId data /\
   qrCodeUrl (state w') = Resp.qrCode data /\
   receivedContent (state w') = [] /\
   connectionRetries (state w') = 0%N /\
   isGenerating (state w') = false /\
   isConnected (state w') = isConnected (state w) /\
   toasts (browser w') = toasts (browser w)) /\
  (forall announce,
     state (step w (SessionSettled (Resolved data) announce)) =
     mkState (Resp.sessionId data) (Resp.qrCode data) [] (isConnected (state w)) false 0).
Proof.
  split.
  - repeat split.
  - intros announce. rewrite step_state. destruct announce; reflexivity.
Qed.

(** ** [refreshSession] *)

(** C3.  With a session id set, a validation response that is not OK makes
    [refreshSession] call [generateSession] and then show the "Session
    Refreshed" toast: the creation request is sent, [refreshSession] itself
    shows nothing else, and when the creation request succeeds the new
    session replaces the old one with no error toast at all.  When the
    validation response is OK, no cell changes (the session id stays) and
    nothing is shown. *)
Theorem refreshSession_replaces_invalid_session (w : World) :
  sessionId (state w) <> "" ->
  let sid := sessionId (state w) in
  (forall o,
     let w' := exec (refreshSession sid (Resolved false) o) w in
     w' = exec (toast session_refreshed)
            (exec (generateSession o) (exec (fetch GET ("/api/session/" ++ sid)%string) w)) /\
     fetches (browser w') =
       fetches (browser w) ++ [(GET, ("/api/session/" ++ sid)%string); (POST, "/api/session")]) /\
  (forall data,
     let w' := exec (refreshSession sid (Resolved false) (Resolved data)) w in
     state w' =
       mkState (Resp.sessionId data) (Resp.qrCode data) [] (isConnected (state w)) false 0 /\
     toasts (browser w') = toasts (browser w) ++ [session_refreshed]) /\
  (forall o,
     let w' := exec (refreshSession sid (Resolved true) o) w in
     state w' = state w /\
     sessionId (state w') = sid /\
     toasts (browser w') = toasts (browser w) /\
     fetches (browser w') = fetches (browser w) ++ [(GET, ("/api/session/" ++ sid)%string)]).
Proof.
  intros Hsid sid.
  assert (Hf : falsy sid = false).
  { unfold falsy. apply String.eqb_neq. exact Hsid. }
  repeat split; unfold refreshSession; rewrite Hf;
    try destruct o; simpl; rewrite <- ?List.app_assoc; try reflexivity.
  all: destruct w as [[] ? ?]; reflexivity.
Qed.

Lemma refreshSession_replaces_invalid_session_witness :
  sessionId (state paired) <> "" /\
  sessionId (state (exec (refreshSession (sessionId (state paired)) (Resolved false)
                            (Resolved (Resp.mk "m7" "https://qr.example/m7"))) paired)) = "m7".
Proof.
  assert (Hne : sessionId (state paired) <> "") by (vm_compute; discriminate).
  split; [exact Hne|].
  destruct (refreshSession_replaces_invalid_session paired Hne) as (_ & Hnew & _).
  destruct (Hnew (Resp.mk "m7" "https://qr.example/m7")) as [Hst _].
  rewrite Hst. reflexivity.
Defined.

(** ** [openLink] and the rows of the list *)

Lemma starts_with_http (url : string) :
  String.prefix "http" url = true <-> exists rest, url = ("http" ++ rest)%string.
Proof.
  rewrite String.prefix_correct. split.
  - destruct url as [|a1 [|a2 [|a3 [|a4 rest]]]]; simpl; try discriminate.
    intros H. injection H as -> -> -> -> _. exists rest. reflexivity.
  - intros [rest ->]. simpl. destruct rest; reflexivity.
Qed.

Lemma lookup_map {A B} (f : A -> B) (l : list A) (i : nat) :
  map f l !! i = f <$> (l !! i).
Proof.
  revert i. induction l as [|a l IH]; intros [|i]; simpl; auto.
Qed.

(** C8.  A click on the Open button of a received item of type link calls
    [window.open] once, with target ["_blank"] (a new tab), on the item's
    content itself when that starts with ["http"] and on the content
    prefixed with ["https://"] otherwise.  Rows of other types have no Open
    button. *)
Theorem openLink_opens_in_new_tab (w : World) (k : nat) (item : Item.t) :
  receivedContent (state w) !! k = Some item ->
  let url := Item.content item in
  let w' := step w (OpenClick k) in
  (Item.type item = "link" ->
   ((exists rest, url = ("http" ++ rest)%string) ->
    windows (browser w') = windows (browser w) ++ [(url, "_blank")]) /\
   ((~ exists rest, url = ("http" ++ rest)%string) ->
    windows (browser w') = windows (browser w) ++ [(("https://" ++ url)%string, "_blank")])) /\
  (Item.type item <> "link" ->
   open_button (render_item item) = None /\ windows (browser w') = windows (browser w)).
Proof.
  intros Hk url w'.
  assert (Hw : windows (browser w') = windows (browser (exec (handle (OpenClick k)) w))).
  { pose proof (step_outputs w (OpenClick k)) as H. unfold outputs in H.
    injection H as _ _ _ H _. exact H. }
  rewrite Hw. clear Hw w'.
  assert (Hrow : rows (state w) !! k = Some (render_item item)).
  { unfold rows. rewrite lookup_map, Hk. reflexivity. }
  unfold handle, on_row. rewrite exec_bind. simpl. rewrite Hrow.
  unfold render_item. simpl. split.
  - intros Hlink. rewrite Hlink. simpl. unfold openLink. fold url. split.
    + intros Hhttp. apply starts_with_http in Hhttp. rewrite Hhttp. reflexivity.
    + intros Hno. destruct (String.prefix "http" url) eqn:Hp.
      * exfalso. apply Hno, starts_with_http. exact Hp.
      * reflexivity.
  - intros Hother. apply String.eqb_neq in Hother. rewrite Hother. split; reflexivity.
Qed.

Lemma openLink_opens_in_new_tab_witness :
  receivedContent (state with_link) !! 0 =
    Some (Item.mk "4fzyo82mv" "example.com/a" "link" 1700000000000) /\
  windows (browser (step with_link (OpenClick 0))) = [("https://example.com/a", "_blank")].
Proof.
  assert (H0 : receivedContent (state with_link) !! 0 =
               Some (Item.mk "4fzyo82mv" "example.com/a" "link" 1700000000000))
    by reflexivity.
  split; [exact H0|].
  destruct (openLink_opens_in_new_tab with_link 0 _ H0) as [Hlink _].
  destruct (Hlink eq_refl) as [_ Hplain].
  rewrite Hplain.
  - reflexivity.
  - intros [rest Hrest]. discriminate Hrest.
Defined.

(** ** Stream messages *)

Lemma on_source_open (w : World) (es : nat) (s : Source) (k : nat -> M unit) :
  sources (browser w) !! es = Some s ->
  closed s = false ->
  on_source es k w = k (owner s) w.
Proof. intros Hes Hopen. unfold on_source. rewrite Hes, Hopen. reflexivity. Qed.

(** C6.  A message of type ["content"] delivered by an open source adds
    exactly one item to the received-content list (at its front: compare C5);
    the item's [content] is the event's [content] and its [type] is the
    event's [contentType], both as they came.  No other cell changes. *)
Theorem content_event_adds_one_item
    (w : World) (es : nat) (s : Source) (random : string) (now : Z) (data : Data.t) :
  sources (browser w) !! es = Some s ->
  closed s = false ->
  Data.type data = "content" ->
  let w' := step w (StreamMessage es random now data) in
  exists item,
    receivedContent (state w') = item :: receivedContent (state w) /\
    length (receivedContent (state w')) = S (length (receivedContent (state w))) /\
    Item.content item = Data.content data /\
    Item.type item = Data.contentType data /\
    state w' = with_receivedContent (item :: receivedContent (state w)) (state w).
Proof.
  intros Hes Hopen Htype w'. subst w'.
  rewrite step_state. unfold handle, exec.
  rewrite (on_source_open w es s _ Hes Hopen). unfold onmessage. rewrite Htype. simpl.
  exists (Item.mk (display_id random) (Data.content data) (Data.contentType data) now).
  repeat split.
Qed.

Lemma content_event_adds_one_item_witness :
  exists item,
    receivedContent (state with_link) = item :: receivedContent (state paired) /\
    Item.content item = "example.com/a" /\
    Item.type item = "link".
Proof.
  destruct (content_event_adds_one_item paired 0 (mkSource "/api/listen/k3v9" 0 false)
              "0.4fzyo82mvyr" 1700000000000
              (Data.mk "content" "link" "example.com/a" [])
              eq_refl eq_refl eq_refl) as (item & Hlist & _ & Hcontent & Htype & _).
  exists item. repeat split; assumption.
Defined.

(** C7.  A message of type ["heartbeat"] writes no cell: the received-content
    list, the session id and the retry counter (and the other three cells)
    are what they were.  Its handler only writes one line to the console: no
    toast, no source, no timeout and no effect is touched. *)
Theorem heartbeat_changes_no_state
    (w : World) (es : nat) (random : string) (now : Z) (data : Data.t) :
  Data.type data = "heartbeat" ->
  let e := StreamMessage es random now data in
  state (step w e) = state w /\
  receivedContent (state (step w e)) = receivedContent (state w) /\
  sessionId (state (step w e)) = sessionId (state w) /\
  connectionRetries (state (step w e)) = connectionRetries (state w) /\
  hooks (exec (handle e) w) = hooks w /\
  (browser (exec (handle e) w) = browser w \/
   browser (exec (handle e) w) =
     with_console (console (browser w) ++ [LogHeartbeat]) (browser w)).
Proof.
  intros Htype e.
  assert (Hst : state (step w e) = state w).
  { subst e. rewrite step_state. unfold handle, on_source, exec.
    destruct (sources (browser w) !! es) as [s|]; [|reflexivity].
    destruct (closed s); [reflexivity|].
    unfold onmessage. rewrite Htype. reflexivity. }
  rewrite Hst. repeat split.
  all: subst e; unfold handle, on_source, exec.
  all: destruct (sources (browser w) !! es) as [s|]; [|auto].
  all: destruct (closed s); [auto|].
  all: unfold onmessage; rewrite Htype; simpl; auto.
Qed.

Lemma heartbeat_changes_no_state_witness :
  state (step with_link (StreamMessage 0 "0.x" 1700000030000 (Data.mk "heartbeat" "" "" [])))
  = state with_link.
Proof.
  exact (proj1 (heartbeat_changes_no_state with_link 0 "0.x" 1700000030000
                  (Data.mk "heartbeat" "" "" []) eq_refl)).
Defined.

(** ** The effects after a render *)

Lemma lookup_snoc {A} (l : list A) (x : A) : (l ++ [x]) !! length l = Some x.
Proof. apply list_lookup_middle. reflexivity. Qed.

Lemma alter_snoc {A} (f : A -> A) (l : list A) (x : A) :
  alter f (length l) (l ++ [x]) = l ++ [f x].
Proof.
  rewrite <- (Nat.add_0_r (length l)) at 1. rewrite alter_app_r. reflexivity.
Qed.

Lemma falsy_spec (s : string) : falsy s = true <-> s = "".
Proof. unfold falsy. apply String.eqb_eq. Qed.

Lemma falsy_false (s : string) : falsy s = false <-> s <> "".
Proof. unfold falsy. apply String.eqb_neq. Qed.

Lemma deps_eqb_spec (a b : string * N) : deps_eqb a b = true <-> a = b.
Proof.
  destruct a as [s n], b as [s' n']. unfold deps_eqb. simpl.
  rewrite andb_true_iff, String.eqb_eq, N.eqb_eq. split.
  - intros [-> ->]. reflexivity.
  - intros H. injection H as -> ->. auto.
Qed.

Lemma deps_cases (a b : string * N) : a = b \/ a <> b.
Proof.
  destruct (deps_eqb a b) eqn:E.
  - left. apply deps_eqb_spec. exact E.
  - right. intros H. apply deps_eqb_spec in H. congruence.
Qed.

(** What a run of the effect body leaves when the session id is not empty:
    one new closure holding one new, open source. *)
Lemma stream_effect_connects (w : World) :
  falsy (sessionId (state w)) = false ->
  exec stream_effect w =
    mkWorld (state w)
      (mkHooks
         (closures (hooks w) ++
            [Closure.mk (sessionId (state w)) (connectionRetries (state w))
                        (Some (length (sources (browser w)))) None])
         (stream_deps (hooks w))
         (Some (length (closures (hooks w))))
         (refresh_deps (hooks w))
         (interval (hooks w)))
      (with_sources
         (sources (browser w) ++
            [mkSource (listen_url (sessionId (state w))) (length (closures (hooks w))) false])
         (browser w)).
Proof.
  intros Hsid.
  unfold stream_effect, exec, bind, get_state. rewrite Hsid.
  unfold new_closure, exec, modify_hooks. simpl.
  unfold connectToSession, with_closure, bind. simpl.
  rewrite lookup_snoc. simpl. rewrite alter_snoc. reflexivity.
Qed.

Lemma stream_effect_idle (w : World) :
  falsy (sessionId (state w)) = true ->
  exec stream_effect w =
    mkWorld (state w) (with_stream_cleanup None (hooks w)) (browser w).
Proof.
  intros Hsid. unfold stream_effect, exec, bind, get_state. rewrite Hsid. reflexivity.
Qed.

Lemma stream_effect_commit_idle (w : World) :
  stream_deps (hooks w) = (sessionId (state w), connectionRetries (state w)) ->
  exec stream_effect_commit w = w.
Proof.
  intros Hdeps. apply deps_eqb_spec in Hdeps.
  unfold stream_effect_commit, exec, bind, get_state, get_hooks.
  rewrite Hdeps. reflexivity.
Qed.

Lemma refresh_effect_commit_idle (w : World) :
  refresh_deps (hooks w) = sessionId (state w) ->
  exec refresh_effect_commit w = w.
Proof.
  intros Hdeps. apply String.eqb_eq in Hdeps.
  unfold refresh_effect_commit, exec, bind, get_state, get_hooks.
  rewrite Hdeps. reflexivity.
Qed.

(** Rendering a store whose dependencies did not change runs no effect. *)
Lemma commit_idle (w : World) :
  stream_deps (hooks w) = (sessionId (state w), connectionRetries (state w)) ->
  refresh_deps (hooks w) = sessionId (state w) ->
  exec commit w = w.
Proof.
  intros Hs Hr. unfold commit. rewrite exec_seq.
  rewrite stream_effect_commit_idle by exact Hs.
  apply refresh_effect_commit_idle. exact Hr.
Qed.

Lemma stream_effect_commit_keeps :
  keeps (same (fun w => (state w, refresh_deps (hooks w), interval (hooks w))))
        stream_effect_commit.
Proof. unfold_effects. frame. Qed.

Lemma refresh_effect_commit_keeps :
  keeps (same (fun w => (state w, closures (hooks w), stream_deps (hooks w),
                         stream_cleanup (hooks w), browser w)))
        refresh_effect_commit.
Proof. unfold_effects. frame. Qed.

Lemma stream_effect_commit_runs (w : World) :
  stream_deps (hooks w) <> (sessionId (state w), connectionRetries (state w)) ->
  exec stream_effect_commit w =
    exec (modify_hooks (with_stream_deps (sessionId (state w), connectionRetries (state w))))
      (exec stream_effect (exec (last_cleanup w) w)).
Proof.
  intros Hdeps.
  assert (Hb : deps_eqb (stream_deps (hooks w))
                 (sessionId (state w), connectionRetries (state w)) = false).
  { destruct (deps_eqb _ _) eqn:E; [|reflexivity].
    apply deps_eqb_spec in E. contradiction. }
  unfold stream_effect_commit. rewrite exec_bind. simpl.
  rewrite exec_bind. simpl. rewrite Hb. simpl.
  rewrite !exec_seq. reflexivity.
Qed.

Lemma last_cleanup_keeps (w0 : World) :
  keeps (same (fun w => (state w, hooks w))) (last_cleanup w0).
Proof. unfold last_cleanup, stream_effect_cleanup. frame. Qed.

(** After its commit the stream effect is ready, if it was ready whenever
    its dependencies had not changed. *)
Lemma stream_effect_commit_ready (w : World) :
  (stream_deps (hooks w) = (sessionId (state w), connectionRetries (state w)) ->
   stream_ready w) ->
  let w' := exec stream_effect_commit w in
  stream_deps (hooks w') = (sessionId (state w), connectionRetries (state w)) /\
  stream_ready w'.
Proof.
  intros Hready w'. subst w'.
  destruct (deps_cases (stream_deps (hooks w))
              (sessionId (state w), connectionRetries (state w))) as [Hdeps|Hdeps].
  - rewrite stream_effect_commit_idle by exact Hdeps. auto.
  - rewrite stream_effect_commit_runs by exact Hdeps.
    pose proof (last_cleanup_keeps w w) as Hm. unfold same in Hm.
    fold (exec (last_cleanup w) w) in Hm.
    set (w1 := exec (last_cleanup w) w) in *. injection Hm as Hst Hhk.
    rewrite <- Hst.
    destruct (falsy (sessionId (state w1))) eqn:Hsid.
    + rewrite (stream_effect_idle w1 Hsid). simpl. split; [reflexivity|].
      unfold stream_ready. simpl. apply falsy_spec. exact Hsid.
    + rewrite (stream_effect_connects w1 Hsid). simpl. split; [reflexivity|].
      unfold stream_ready. simpl. split; [apply falsy_false; exact Hsid|].
      eexists _, _. split; apply lookup_snoc.
Qed.

Lemma refresh_effect_commit_ready (w : World) :
  (refresh_deps (hooks w) = sessionId (state w) -> interval_ready w) ->
  let w' := exec refresh_effect_commit w in
  refresh_deps (hooks w') = sessionId (state w) /\ interval_ready w'.
Proof.
  intros Hready w'. subst w'.
  destruct (String.eqb (refresh_deps (hooks w)) (sessionId (state w))) eqn:Hdeps.
  - apply String.eqb_eq in Hdeps. rewrite refresh_effect_commit_idle by exact Hdeps. auto.
  - unfold refresh_effect_commit. rewrite exec_bind. simpl.
    rewrite exec_bind. simpl. rewrite Hdeps. simpl.
    unfold interval_ready, refresh_effect, refresh_effect_cleanup, exec, bind. simpl.
    destruct (falsy (sessionId (state w))) eqn:Hsid; simpl; rewrite Hsid; auto.
Qed.

(** ** What a handler leaves alone *)

Lemma map_forget_alter (v : option nat) (c : nat) (l : list Closure.t) :
  map forget (alter (with_reconnectTimeout v) c l) = map forget l.
Proof.
  revert c. induction l as [|cl l IH]; intros [|c]; simpl; try reflexivity.
  f_equal. apply IH.
Qed.

Lemma assign_reconnectTimeout_keeps_plumbing (c : nat) (v : option nat) :
  keeps (same plumbing) (assign_reconnectTimeout c v).
Proof.
  intros w. unfold same, plumbing. simpl. rewrite map_forget_alter. reflexivity.
Qed.

Lemma keeps_on_timeout (R : World -> World -> Prop) `{!PreOrder R} (t : nat) :
  keeps R (modify_browser (fun b => with_timeouts (alter fire_timer t (timeouts b)) b)) ->
  (forall c, keeps R (reconnect c)) ->
  keeps R (on_timeout t).
Proof.
  intros Hfire Hre w. unfold on_timeout.
  destruct (timeouts (browser w) !! t) as [tm|]; [|simpl; reflexivity].
  destruct (timer_state tm); try (simpl; reflexivity).
  apply keeps_bind; [assumption|exact Hfire|]. intros _. apply Hre.
Qed.

Lemma handle_keeps_wiring (e : Event) : keeps (same wiring) (handle e).
Proof.
  destruct e; cbn [handle]; frame.
  apply keeps_on_timeout; frame.
Qed.

Lemma connectToSession_keeps_state (c : nat) : keeps (same state) (connectToSession c).
Proof. unfold connectToSession. frame. Qed.

Lemma on_timeout_pending (w : World) (t : nat) (tm : Timeout) :
  timeouts (browser w) !! t = Some tm ->
  timer_state tm = Pending ->
  exec (on_timeout t) w = exec (reconnect (timer_owner tm)) (exec (fire t) w).
Proof.
  intros Ht Hst. rewrite <- exec_seq. unfold exec, on_timeout. rewrite Ht, Hst. reflexivity.
Qed.

Lemma on_timeout_spent (w : World) (t : nat) :
  (forall tm, timeouts (browser w) !! t = Some tm -> timer_state tm <> Pending) ->
  exec (on_timeout t) w = w.
Proof.
  intros H. unfold exec, on_timeout.
  destruct (timeouts (browser w) !! t) as [tm|]; [|reflexivity].
  specialize (H tm eq_refl). destruct (timer_state tm); [contradiction|reflexivity..].
Qed.

Lemma reconnect_state (c : nat) (w : World) :
  state (exec (reconnect c) w) =
    with_connectionRetries (connectionRetries (state w) + 1) (state w).
Proof.
  unfold reconnect. rewrite exec_seq.
  rewrite (same_exec state _ _ (connectToSession_keeps_state c)). reflexivity.
Qed.

(** A timeout that fires bumps the retry counter and writes no other cell;
    one that was cleared, or has fired before, does nothing at all. *)
Lemma on_timeout_cases (w : World) (t : nat) :
  (exists tm, timeouts (browser w) !! t = Some tm /\ timer_state tm = Pending /\
     exec (on_timeout t) w = exec (reconnect (timer_owner tm)) (exec (fire t) w) /\
     state (exec (on_timeout t) w) =
       with_connectionRetries (connectionRetries (state w) + 1) (state w)) \/
  ((forall tm, timeouts (browser w) !! t = Some tm -> timer_state tm <> Pending) /\
   exec (on_timeout t) w = w).
Proof.
  destruct (timeouts (browser w) !! t) as [tm|] eqn:Ht.
  - destruct (timer_state tm) eqn:Hst.
    + left. exists tm. rewrite (on_timeout_pending w t tm Ht Hst).
      repeat split; try assumption. rewrite reconnect_state. reflexivity.
    + right. assert (H : forall tm', Some tm = Some tm' -> timer_state tm' <> Pending)
        by (intros tm' [= <-]; congruence).
      split; [exact H|]. apply on_timeout_spent. rewrite Ht. exact H.
    + right. assert (H : forall tm', Some tm = Some tm' -> timer_state tm' <> Pending)
        by (intros tm' [= <-]; congruence).
      split; [exact H|]. apply on_timeout_spent. rewrite Ht. exact H.
  - right. assert (H : forall tm', @None Timeout = Some tm' -> timer_state tm' <> Pending)
      by (intros tm' [=]).
    split; [exact H|]. apply on_timeout_spent. rewrite Ht. exact H.
Qed.

(** Every handler either leaves the sources and the closures' captured
    values and [eventSource] variables alone, or is the timeout callback,
    which bumps the retry counter. *)
Lemma handle_quiet_or_bumped (w : World) (e : Event) :
  let w' := exec (handle e) w in
  plumbing w' = plumbing w \/
  connectionRetries (state w') = (connectionRetries (state w) + 1)%N.
Proof.
  intros w'. subst w'.
  destruct e.
  12: {
    simpl handle. destruct (on_timeout_cases w t) as [(tm & _ & _ & _ & Hst)|[_ Hsame]].
    - right. rewrite Hst. reflexivity.
    - left. rewrite Hsame. reflexivity. }
  all: left.
  all: refine (_ : same plumbing w _); apply keeps_exec.
  all: cbn [handle]; frame.
  all: apply assign_reconnectTimeout_keeps_plumbing.
Qed.

Lemma stream_ready_transfer (w w' : World) :
  sessionId (state w') = sessionId (state w) ->
  connectionRetries (state w') = connectionRetries (state w) ->
  stream_cleanup (hooks w') = stream_cleanup (hooks w) ->
  plumbing w' = plumbing w ->
  stream_ready w -> stream_ready w'.
Proof.
  intros Hsid Hr Hc Hp. injection Hp as Hsrc Hcl.
  unfold stream_ready. rewrite Hc, Hsid, Hr, Hsrc.
  destruct (stream_cleanup (hooks w)) as [c|]; [|auto].
  intros [Hne (es & rt & Hclo & Hes)]. split; [exact Hne|].
  assert (H : map forget (closures (hooks w')) !! c =
              Some (forget (Closure.mk (sessionId (state w)) (connectionRetries (state w))
                                       (Some es) rt))).
  { rewrite Hcl, lookup_map, Hclo. reflexivity. }
  rewrite lookup_map in H.
  destruct (closures (hooks w') !! c) as [[sid' r' es' rt']|]; [|discriminate].
  simpl in H. injection H as -> -> ->.
  exists es, rt'. auto.
Qed.

(** ** Every reachable store is settled *)

Lemma settled_mount : settled mount.
Proof. split; reflexivity. Qed.

Lemma settled_step (w : World) (e : Event) : settled w -> settled (step w e).
Proof.
  intros [Hsd Hrd Hs Hi]. unfold deps in Hsd.
  rewrite step_unfold. unfold commit. rewrite exec_seq.
  set (w1 := exec (handle e) w).
  assert (Hw : wiring w1 = wiring w) by apply handle_keeps_wiring.
  injection Hw as Hw_sd Hw_sc Hw_rd Hw_i.
  assert (H1 : stream_deps (hooks w1) = (sessionId (state w1), connectionRetries (state w1)) ->
               stream_ready w1).
  { intros Heq. rewrite Hw_sd, Hsd in Heq. injection Heq as Hsid Hr.
    destruct (handle_quiet_or_bumped w e) as [Hp|Hb]; fold w1 in Hp || fold w1 in Hb.
    - apply (stream_ready_transfer w w1); auto.
    - exfalso. rewrite Hb in Hr. lia. }
  pose proof (stream_effect_commit_ready w1 H1) as [Hsd2 Hs2].
  pose proof (stream_effect_commit_keeps w1) as Hk2. unfold same in Hk2.
  fold (exec stream_effect_commit w1) in Hk2.
  set (w2 := exec stream_effect_commit w1) in *.
  injection Hk2 as Hst2 Hrd2 Hi2.
  assert (H2 : refresh_deps (hooks w2) = sessionId (state w2) -> interval_ready w2).
  { intros Heq. unfold interval_ready. rewrite Hi2, Hw_i, Hi.
    rewrite Hrd2, Hw_rd, Hrd in Heq. rewrite Heq. reflexivity. }
  pose proof (refresh_effect_commit_ready w2 H2) as [Hrd3 Hi3].
  pose proof (refresh_effect_commit_keeps w2) as Hk3. unfold same in Hk3.
  fold (exec refresh_effect_commit w2) in Hk3.
  set (w3 := exec refresh_effect_commit w2) in *.
  pose proof (f_equal snd Hk3) as Hb3.
  pose proof (f_equal (fun p => snd (fst p)) Hk3) as Hsc3.
  pose proof (f_equal (fun p => snd (fst (fst p))) Hk3) as Hsd3.
  pose proof (f_equal (fun p => snd (fst (fst (fst p)))) Hk3) as Hcl3.
  pose proof (f_equal (fun p => fst (fst (fst (fst p)))) Hk3) as Hst3.
  cbv beta in Hb3, Hsc3, Hsd3, Hcl3, Hst3. unfold fst, snd in Hb3, Hsc3, Hsd3, Hcl3, Hst3.
  clear Hk3.
  split.
  - unfold deps. rewrite Hsd3, Hsd2, Hst3, Hst2. reflexivity.
  - rewrite Hrd3, Hst3. reflexivity.
  - apply (stream_ready_transfer w2 w3); try congruence.
    unfold plumbing. rewrite Hb3, Hcl3. reflexivity.
  - exact Hi3.
Qed.

Theorem reachable_settled (w : World) : reachable w -> settled w.
Proof.
  induction 1 as [|w e _ IH].
  - exact settled_mount.
  - apply settled_step. exact IH.
Qed.

Lemma reachable_run (w : World) (es : list Event) : reachable w -> reachable (run w es).
Proof.
  revert w. induction es as [|e es IH]; intros w Hw; [exact Hw|].
  rewrite run_cons. apply IH. constructor. exact Hw.
Qed.

Lemma step_idle (w : World) (e : Event) :
  settled w ->
  deps (exec (handle e) w) = deps w ->
  step w e = exec (handle e) w.
Proof.
  intros [Hsd Hrd _ _] Hdeps. unfold deps in Hsd. rewrite step_unfold.
  pose proof (handle_keeps_wiring e w) as Hw. unfold same in Hw.
  fold (exec (handle e) w) in Hw. injection Hw as Hw_sd _ Hw_rd _.
  unfold deps in Hdeps. injection Hdeps as Hsid Hr.
  apply commit_idle.
  - rewrite Hw_sd, Hsd, Hsid, Hr. reflexivity.
  - rewrite Hw_rd, Hrd, Hsid. reflexivity.
Qed.

Lemma step_message (w : World) (es : nat) (random : string) (now : Z) (data : Data.t) :
  settled w ->
  step w (StreamMessage es random now data) =
    exec (handle (StreamMessage es random now data)) w.
Proof.
  intros Hw. apply step_idle; [exact Hw|].
  refine (same_exec deps _ w _). cbn [handle]. frame.
Qed.

(** ** The received list *)

Lemma step_content (w : World) (es : nat) (s : Source) (m : Delivery) :
  settled w ->
  sources (browser w) !! es = Some s ->
  closed s = false ->
  Data.type (data_of m) = "content" ->
  let w' := step w (deliver es m) in
  receivedContent (state w') = received m :: receivedContent (state w) /\
  sources (browser w') = sources (browser w).
Proof.
  intros Hw Hes Hopen Htype w'. subst w'. unfold deliver.
  rewrite step_message by exact Hw. cbn [handle]. unfold exec.
  rewrite (on_source_open w es s _ Hes Hopen).
  unfold onmessage. rewrite Htype. split; reflexivity.
Qed.

Lemma base36_substring (n m : nat) (s : string) :
  base36 s = true -> base36 (String.substring n m s) = true.
Proof.
  revert n m. induction s as [|a s IH]; intros n m Hs.
  - destruct n, m; reflexivity.
  - simpl in Hs. apply andb_true_iff in Hs as [Ha Hs].
    destruct n as [|n]; [destruct m as [|m]|]; simpl; auto.
    rewrite Ha. simpl. apply IH. exact Hs.
Qed.

Lemma length_substring_le (n m : nat) (s : string) :
  String.length (String.substring n m s) <= m.
Proof.
  revert n m. induction s as [|a s IH]; intros n m.
  - destruct n, m; simpl; lia.
  - destruct n as [|n]; [destruct m as [|m]|]; simpl.
    + lia.
    + specialize (IH 0 m). lia.
    + apply IH.
Qed.

(** C5.  After any sequence of content events delivered by an open source,
    the received list is the list of their items in reverse order of
    arrival, in front of what it held before (every item was put at the
    front, the newest is first), and the rows are rendered in the order of
    that list.  The id of an item (also the [key] of its row) is computed
    from [Math.random()] alone: it does not depend on the event, and when
    [Math.random().toString(36)] is ["0."] followed by base-36 digits, it
    consists of at most nine base-36 digits. *)
Theorem content_events_newest_first
    (w : World) (es : nat) (s : Source) (ms : list Delivery) :
  reachable w ->
  sources (browser w) !! es = Some s ->
  closed s = false ->
  Forall (fun m => Data.type (data_of m) = "content") ms ->
  let w' := run w (map (deliver es) ms) in
  receivedContent (state w') = rev (map received ms) ++ receivedContent (state w) /\
  rows (state w') = map render_item (rev (map received ms)) ++ rows (state w) /\
  map key (rows (state w')) =
    rev (map (fun m => display_id (random_of m)) ms) ++ map key (rows (state w)) /\
  (forall m data', Item.id (received m) =
                   Item.id (received (mkDelivery (random_of m) (now_of m) data'))) /\
  (forall digits now data,
     base36 digits = true ->
     let item := received (mkDelivery ("0." ++ digits) now data) in
     base36 (Item.id item) = true /\ String.length (Item.id item) <= 9).
Proof.
  intros Hreach Hes Hopen Hms w'.
  assert (Hlist : receivedContent (state w') =
                  rev (map received ms) ++ receivedContent (state w)).
  { subst w'. apply reachable_settled in Hreach. clear - Hreach Hes Hopen Hms.
    revert w Hreach Hes. induction Hms as [|m ms Hm _ IH]; intros w Hw Hes; [reflexivity|].
    simpl map. rewrite run_cons.
    destruct (step_content w es s m Hw Hes Hopen Hm) as [Hhead Hsrc].
    rewrite IH; [|apply settled_step; exact Hw|rewrite Hsrc; exact Hes].
    rewrite Hhead. simpl. rewrite <- List.app_assoc. reflexivity. }
  assert (Hrows : rows (state w') = map render_item (rev (map received ms)) ++ rows (state w)).
  { unfold rows. rewrite Hlist, map_app. reflexivity. }
  repeat split.
  - exact Hlist.
  - exact Hrows.
  - rewrite Hrows, map_app, !map_rev, !map_map. reflexivity.
  - change (base36 (String.substring 0 9 digits) = true).
    apply base36_substring. assumption.
  - change (String.length (String.substring 0 9 digits) <= 9).
    apply length_substring_le.
Qed.

Lemma reachable_paired : reachable paired.
Proof. apply reachable_run, reachable_mount. Qed.

Lemma content_events_newest_first_witness :
  map Item.content (receivedContent (state (run paired (map (deliver 0) two_notes)))) =
    ["https://b.example"; "first"] /\
  map key (rows (state (run paired (map (deliver 0) two_notes)))) = ["q1w9z"; "8dk2l0qpx"].
Proof.
  assert (Hall : Forall (fun m => Data.type (data_of m) = "content") two_notes)
    by (repeat constructor).
  destruct (content_events_newest_first paired 0 (mkSource "/api/listen/k3v9" 0 false)
              two_notes reachable_paired eq_refl eq_refl Hall)
    as (Hlist & _ & Hkeys & _).
  rewrite Hlist, Hkeys. split; reflexivity.
Defined.

(** ** The refresh interval *)

Lemma tick_calls_refreshSession (w : World) :
  settled w ->
  step w IntervalTick =
    match interval (hooks w) with
    | Some i => exec (refreshSession_begin (interval_sessionId i)) w
    | None => w
    end.
Proof.
  intros Hw.
  assert (Hh : exec (handle IntervalTick) w =
               match interval (hooks w) with
               | Some i => exec (refreshSession_begin (interval_sessionId i)) w
               | None => w
               end).
  { cbn [handle]. rewrite exec_bind. simpl. destruct (interval (hooks w)); reflexivity. }
  rewrite step_idle; [exact Hh|exact Hw|]. rewrite Hh.
  destruct (interval (hooks w)) as [i|]; [|reflexivity].
  apply (same_exec deps). unfold refreshSession_begin. frame.
Qed.

Lemma refresh_events_run (w : World) (v : Outcome bool) (o : Outcome Resp.t) :
  settled w ->
  sessionId (state w) <> "" ->
  run w (refresh_events v o) =
    exec (refreshSession (sessionId (state w)) v o ;; commit) w.
Proof.
  intros Hw Hsid. pose proof Hsid as Hf. apply falsy_false in Hf.
  pose proof (settled_interval w Hw) as Hi. unfold interval_ready in Hi. rewrite Hf in Hi.
  set (u := ("/api/session/" ++ sessionId (state w))%string).
  assert (Htick : step w IntervalTick = exec (fetch GET u) w).
  { rewrite (tick_calls_refreshSession w Hw), Hi. unfold refreshSession_begin.
    simpl interval_sessionId. rewrite Hf. reflexivity. }
  assert (Hw1 : settled (exec (fetch GET u) w)).
  { rewrite <- Htick. apply settled_step. exact Hw. }
  unfold refresh_events, refreshSession. rewrite Hf. fold u.
  rewrite run_cons, Htick. set (w1 := exec (fetch GET u) w) in *.
  rewrite !exec_seq. fold w1.
  destruct v as [[|]|].
  - (* the session is valid *)
    simpl. rewrite step_idle by (exact Hw1 || reflexivity). cbn [handle]. simpl.
    symmetry. destruct Hw1 as [Hsd Hrd _ _]. apply commit_idle; assumption.
  - (* not valid: a new session, then the toast *)
    rewrite run_cons.
    assert (Hbegin : step w1 (ValidationSettled (Resolved false)) =
                     exec generateSession_begin w1).
    { apply step_idle; [exact Hw1|]. cbn [handle]. unfold refreshSession_settle. simpl when.
      exact (same_exec deps generateSession_begin w1 ltac:(frame)). }
    rewrite Hbegin. simpl run. rewrite step_unfold. cbn [handle].
    unfold when, generateSession. simpl negb. cbv iota. rewrite !exec_seq. reflexivity.
  - (* the validation request failed: a new session, no toast *)
    rewrite run_cons.
    assert (Hbegin : step w1 (ValidationSettled Rejected) = exec generateSession_begin w1).
    { apply step_idle; [exact Hw1|]. cbn [handle]. unfold refreshSession_settle.
      exact (same_exec deps generateSession_begin w1 ltac:(frame)). }
    rewrite Hbegin. simpl run. rewrite step_unfold. cbn [handle].
    unfold when, generateSession. rewrite !exec_seq. reflexivity.
Qed.

(** C4.  In every reachable store with a session id, the interval is set
    with a period of exactly 30 * 60 * 1000 = 1800000 ms (30 minutes) and its
    callback is the [refreshSession] of the current session id: a tick runs
    it up to its validation request, and the events of one tick amount to one
    run of [refreshSession] followed by a render.  Without a session id there
    is no interval. *)
Theorem refresh_interval_thirty_minutes (w : World) :
  reachable w ->
  (sessionId (state w) <> "" ->
   interval (hooks w) = Some (mkInterval (30 * 60 * 1000) (sessionId (state w))) /\
   (30 * 60 * 1000 = 1800000)%N /\
   step w IntervalTick = exec (refreshSession_begin (sessionId (state w))) w /\
   fetches (browser (step w IntervalTick)) =
     fetches (browser w) ++ [(GET, ("/api/session/" ++ sessionId (state w))%string)] /\
   forall v o,
     run w (refresh_events v o) =
       exec (refreshSession (sessionId (state w)) v o ;; commit) w) /\
  (sessionId (state w) = "" ->
   interval (hooks w) = None /\ step w IntervalTick = w).
Proof.
  intros Hreach. apply reachable_settled in Hreach. pose proof Hreach as Hw.
  destruct Hreach as [_ _ _ Hi]. unfold interval_ready in Hi.
  pose proof (tick_calls_refreshSession w Hw) as Htick.
  split.
  - intros Hsid. pose proof Hsid as Hf. apply falsy_false in Hf. rewrite Hf in Hi.
    rewrite Hi in Htick. simpl interval_sessionId in Htick.
    split; [exact Hi|]. split; [reflexivity|]. split; [exact Htick|]. split.
    + rewrite Htick. unfold refreshSession_begin. rewrite Hf. reflexivity.
    + intros v o. apply refresh_events_run; assumption.
  - intros Hsid. pose proof Hsid as Hf. apply falsy_spec in Hf. rewrite Hf in Hi.
    rewrite Hi in Htick. split; [exact Hi|exact Htick].
Qed.

Lemma refresh_interval_thirty_minutes_witness :
  interval (hooks paired) = Some (mkInterval 1800000 "k3v9") /\
  fetches (browser (step paired IntervalTick)) =
    [(POST, "/api/session"); (GET, "/api/session/k3v9")].
Proof.
  destruct (refresh_interval_thirty_minutes paired reachable_paired) as [Hset _].
  assert (Hne : sessionId (state paired) <> "") by (vm_compute; discriminate).
  destruct (Hset Hne) as (Hi & _ & Hf & _).
  rewrite Hi, Hf. split; reflexivity.
Defined.

(** ** Stream errors and reconnection *)

Lemma length_close_held (cl : Closure.t) (l : list Source) :
  length (close_held cl l) = length l.
Proof. unfold close_held. destruct (Closure.eventSource cl); [apply length_alter|reflexivity]. Qed.

(** [connectToSession] closes the source its closure holds, creates one, and
    stores it in the closure. *)
Lemma connectToSession_run (w : World) (c : nat) (cl : Closure.t) :
  closures (hooks w) !! c = Some cl ->
  exec (connectToSession c) w =
    mkWorld (state w)
      (with_closures
         (alter (with_eventSource (Some (length (sources (browser w))))) c (closures (hooks w)))
         (hooks w))
      (with_sources
         (close_held cl (sources (browser w)) ++
            [mkSource (listen_url (Closure.sessionId cl)) c false])
         (browser w)).
Proof.
  intros Hcl. unfold connectToSession, with_closure, exec. rewrite Hcl.
  unfold close_held, bind.
  destruct (Closure.eventSource cl) as [es|]; simpl; rewrite ?length_alter; reflexivity.
Qed.

(** The cleanup closes the source and clears the timeout that the two
    variables of its closure hold when it runs. *)
Lemma stream_effect_cleanup_run (w : World) (c : nat) (cl : Closure.t) :
  closures (hooks w) !! c = Some cl ->
  exec (stream_effect_cleanup c) w =
    mkWorld (state w) (hooks w)
      (with_timeouts (clear_held cl (timeouts (browser w)))
         (with_sources (close_held cl (sources (browser w))) (browser w))).
Proof.
  intros Hcl. unfold stream_effect_cleanup, with_closure, exec. rewrite Hcl.
  unfold close_held, clear_held, bind.
  destruct w as [st hk [srcs tms fs ws cb cs ts]].
  destruct (Closure.eventSource cl), (Closure.reconnectTimeout cl); reflexivity.
Qed.

(** [onerror] in a closure that captured a counter below 5: the flag is
    cleared, one timeout is created with the backoff delay of the captured
    counter, and the closure remembers it. *)
Lemma onerror_backoff (w : World) (c : nat) (cl : Closure.t) :
  closures (hooks w) !! c = Some cl ->
  (Closure.connectionRetries cl < 5)%N ->
  exec (onerror c) w =
    mkWorld (with_isConnected false (state w))
      (with_closures
         (alter (with_reconnectTimeout (Some (length (timeouts (browser w))))) c
                (closures (hooks w)))
         (hooks w))
      (with_timeouts
         (timeouts (browser w) ++ [mkTimeout (backoff (Closure.connectionRetries cl)) c Pending])
         (with_console
            (console (browser w) ++
               [LogError; LogReconnecting (backoff (Closure.connectionRetries cl))])
            (browser w))).
Proof.
  intros Hcl Hlt. apply N.ltb_lt in Hlt.
  unfold onerror. rewrite !exec_seq. unfold with_closure, exec at 1.
  simpl. rewrite Hcl, Hlt. simpl. rewrite <- List.app_assoc. reflexivity.
Qed.

(** [onerror] in a closure that captured a counter of 5 or more: the flag is
    cleared and nothing is scheduled. *)
Lemma onerror_exhausted (w : World) (c : nat) (cl : Closure.t) :
  closures (hooks w) !! c = Some cl ->
  (5 <= Closure.connectionRetries cl)%N ->
  exec (onerror c) w =
    mkWorld (with_isConnected false (state w)) (hooks w)
      (with_console (console (browser w) ++ [LogError]) (browser w)).
Proof.
  intros Hcl Hge. apply N.ltb_ge in Hge.
  unfold onerror. rewrite !exec_seq. unfold with_closure, exec at 1.
  simpl. rewrite Hcl, Hge. reflexivity.
Qed.

Lemma onerror_keeps_deps (c : nat) : keeps (same deps) (onerror c).
Proof. frame. Qed.

Lemma step_error (w : World) (es : nat) (s : Source) :
  settled w ->
  sources (browser w) !! es = Some s ->
  closed s = false ->
  step w (StreamError es) = exec (onerror (owner s)) w.
Proof.
  intros Hw Hes Hopen.
  assert (Hh : exec (handle (StreamError es)) w = exec (onerror (owner s)) w).
  { cbn [handle]. unfold exec. rewrite (on_source_open w es s _ Hes Hopen). reflexivity. }
  rewrite step_idle; [exact Hh|exact Hw|].
  rewrite Hh. apply (same_exec deps). apply onerror_keeps_deps.
Qed.

(** In a settled store, the source the effect holds is open, belongs to the
    closure of the last run, and that closure captured the current cells. *)
Lemma settled_live (w : World) (es : nat) :
  settled w ->
  live_source w = Some es ->
  exists c rt,
    stream_cleanup (hooks w) = Some c /\
    closures (hooks w) !! c =
      Some (Closure.mk (sessionId (state w)) (connectionRetries (state w)) (Some es) rt) /\
    sources (browser w) !! es = Some (mkSource (listen_url (sessionId (state w))) c false).
Proof.
  intros [_ _ Hs _] Hlive. unfold live_source in Hlive. unfold stream_ready in Hs.
  destruct (stream_cleanup (hooks w)) as [c|]; [|discriminate].
  destruct Hs as [_ (es' & rt & Hcl & Hsrc)]. rewrite Hcl in Hlive.
  simpl in Hlive. injection Hlive as ->. exists c, rt. auto.
Qed.

Lemma alter_snoc_at {A} (f : A -> A) (l : list A) (x : A) (n : nat) :
  length l = n -> alter f n (l ++ [x]) = l ++ [f x].
Proof. intros <-. apply alter_snoc. Qed.

(** What the callback of a pending timeout does when it runs in the closure
    of the effect's last run, and what React does afterwards: the callback
    bumps the counter and replaces the closure's source; the counter having
    changed, the cleanup closes that replacement and the effect runs again,
    in a new closure with a new source. *)
Lemma fire_in_live_closure (w : World) (c t : nat) (cl : Closure.t) (tm : Timeout) :
  settled w ->
  sessionId (state w) <> "" ->
  stream_cleanup (hooks w) = Some c ->
  closures (hooks w) !! c = Some cl ->
  timeouts (browser w) !! t = Some tm ->
  timer_state tm = Pending ->
  timer_owner tm = c ->
  let w' := step w (TimeoutFire t) in
  let n := length (sources (browser w)) in
  let u := listen_url (sessionId (state w)) in
  state w' = with_connectionRetries (connectionRetries (state w) + 1) (state w) /\
  sources (browser w') =
    close_held cl (sources (browser w)) ++
      [mkSource (listen_url (Closure.sessionId cl)) c true;
       mkSource u (length (closures (hooks w))) false] /\
  timeouts (browser w') = clear_held cl (alter fire_timer t (timeouts (browser w))) /\
  live_source w' = Some (S n).
Proof.
  intros Hw Hsid Hc Hcl Ht Hst Hown w' n u.
  pose proof Hw as [Hsd Hrd _ _]. unfold deps in Hsd.
  subst w'. rewrite step_unfold. cbn [handle].
  rewrite (on_timeout_pending w t tm Ht Hst), Hown.
  unfold reconnect. rewrite exec_seq.
  set (w1 := exec (setConnectionRetries (fun prev => (prev + 1)%N)) (exec (fire t) w)).
  assert (Hcl1 : closures (hooks w1) !! c = Some cl) by exact Hcl.
  rewrite (connectToSession_run w1 c cl Hcl1).
  set (w2 := mkWorld _ _ _).
  unfold commit. rewrite exec_seq.
  assert (Hdeps : stream_deps (hooks w2) <> (sessionId (state w2), connectionRetries (state w2))).
  { subst w2 w1. simpl. rewrite Hsd. intros H. injection H as H. lia. }
  rewrite (stream_effect_commit_runs w2 Hdeps).
  assert (Hlast : last_cleanup w2 = stream_effect_cleanup c).
  { unfold last_cleanup. subst w2 w1. simpl. rewrite Hc. reflexivity. }
  rewrite Hlast.
  assert (Hcl2 : closures (hooks w2) !! c = Some (with_eventSource (Some n) cl)).
  { subst w2 w1. simpl. rewrite list_lookup_alter_eq, Hcl. reflexivity. }
  rewrite (stream_effect_cleanup_run w2 c _ Hcl2).
  set (w3 := mkWorld _ _ _).
  assert (Hf3 : falsy (sessionId (state w3)) = false).
  { subst w3 w2 w1. simpl. apply falsy_false. exact Hsid. }
  rewrite (stream_effect_connects w3 Hf3).
  set (w4 := exec (modify_hooks _) _).
  assert (Hidle : exec refresh_effect_commit w4 = w4).
  { apply refresh_effect_commit_idle. subst w4 w3 w2 w1. simpl. exact Hrd. }
  rewrite Hidle.
  assert (Hlen : length (close_held cl (sources (browser w))) = n)
    by apply length_close_held.
  clear Hidle Hf3 Hcl2 Hlast Hdeps Hcl1.
  subst w4 w3 w2 w1. simpl. repeat split.
  - unfold close_held at 1. simpl.
    rewrite (alter_snoc_at _ _ _ n Hlen), length_alter, <- List.app_assoc. reflexivity.
  - unfold live_source. simpl. rewrite lookup_snoc. simpl.
    rewrite length_close_held, length_app, Hlen. simpl. f_equal. lia.
Qed.

(** The first connection: when a session id arrives in a store that had
    none, the render that follows runs the stream effect, which opens the
    source at once (no timeout is involved). *)
Lemma first_connection (w : World) (data : Resp.t) (announce : bool) :
  settled w ->
  sessionId (state w) = "" ->
  Resp.sessionId data <> "" ->
  let w' := step w (SessionSettled (Resolved data) announce) in
  sources (browser w') =
    sources (browser w) ++
      [mkSource (listen_url (Resp.sessionId data)) (length (closures (hooks w))) false] /\
  live_source w' = Some (length (sources (browser w))) /\
  timeouts (browser w') = timeouts (browser w).
Proof.
  intros Hw Hnone Hsid w'. pose proof Hw as [Hsd Hrd Hs _]. unfold deps in Hsd.
  assert (Hc : stream_cleanup (hooks w) = None).
  { unfold stream_ready in Hs. destruct (stream_cleanup (hooks w)); [|reflexivity].
    destruct Hs as [Hne _]. contradiction. }
  subst w'. rewrite step_unfold. set (w1 := exec (handle _) w).
  assert (H1 : state w1 = mkState (Resp.sessionId data) (Resp.qrCode data) []
                 (isConnected (state w)) false 0 /\
               hooks w1 = hooks w /\
               sources (browser w1) = sources (browser w) /\
               timeouts (browser w1) = timeouts (browser w)).
  { subst w1. destruct announce; repeat split. }
  destruct H1 as (Hst1 & Hhk1 & Hsrc1 & Htm1).
  unfold commit. rewrite exec_seq.
  assert (Hdeps : stream_deps (hooks w1) <> (sessionId (state w1), connectionRetries (state w1))).
  { rewrite Hhk1, Hsd, Hst1, Hnone. simpl. intros H. injection H as H _. auto. }
  rewrite (stream_effect_commit_runs w1 Hdeps).
  assert (Hlast : exec (last_cleanup w1) w1 = w1).
  { unfold last_cleanup. rewrite Hhk1, Hc. reflexivity. }
  rewrite Hlast.
  assert (Hf : falsy (sessionId (state w1)) = false).
  { rewrite Hst1. simpl. apply falsy_false. exact Hsid. }
  rewrite (stream_effect_connects w1 Hf).
  set (w2 := exec (modify_hooks _) _).
  pose proof (refresh_effect_commit_keeps w2) as Hk. unfold same in Hk.
  fold (exec refresh_effect_commit w2) in Hk. injection Hk as _ Hcl3 _ Hsc3 Hb3.
  unfold live_source. rewrite Hb3, Hcl3, Hsc3. subst w2. simpl.
  rewrite Hhk1, Hsrc1, Htm1, Hst1, lookup_snoc. simpl. auto.
Qed.

(** The backoff policy as the code has it.  In a reachable store, an error
    reported by an open source creates exactly one timeout when the retry
    counter [r] that the handler reads is below 5, with delay
    [min(1000 * 2^r, 30000)]; [r] is the counter captured by the closure
    that created the source.  For the source held by the stream effect that
    is the current value of [connectionRetries], and then: the connection
    flag is cleared and no source is created or closed until the timeout
    fires; when it fires, the counter becomes [r + 1], the source that failed
    is closed, and after the render the effect holds one new open source for
    the same session (the source that the callback itself created is closed
    by the effect's cleanup in that render).  The first connection is made in
    the very step in which a session id arrives. *)
Lemma error_schedules_backoff_of_closure (w : World) :
  reachable w ->
  (forall es s cl,
     sources (browser w) !! es = Some s ->
     closed s = false ->
     closures (hooks w) !! owner s = Some cl ->
     (Closure.connectionRetries cl < 5)%N ->
     timeouts (browser (step w (StreamError es))) =
       timeouts (browser w) ++
         [mkTimeout (N.min (1000 * 2 ^ Closure.connectionRetries cl) 30000) (owner s) Pending]) /\
  (forall es,
     live_source w = Some es ->
     (connectionRetries (state w) < 5)%N ->
     let r := connectionRetries (state w) in
     let u := listen_url (sessionId (state w)) in
     let t := length (timeouts (browser w)) in
     let w1 := step w (StreamError es) in
     let w2 := step w1 (TimeoutFire t) in
     exists c,
       stream_cleanup (hooks w) = Some c /\
       timeouts (browser w1) =
         timeouts (browser w) ++ [mkTimeout (N.min (1000 * 2 ^ r) 30000) c Pending] /\
       state w1 = with_isConnected false (state w) /\
       sources (browser w1) = sources (browser w) /\
       connectionRetries (state w2) = (r + 1)%N /\
       timeouts (browser w2) =
         timeouts (browser w) ++ [mkTimeout (N.min (1000 * 2 ^ r) 30000) c Fired] /\
       sources (browser w2) =
         alter close_source es (sources (browser w)) ++
           [mkSource u c true; mkSource u (length (closures (hooks w))) false] /\
       live_source w2 = Some (S (length (sources (browser w))))) /\
  (forall data announce,
     sessionId (state w) = "" ->
     Resp.sessionId data <> "" ->
     let w' := step w (SessionSettled (Resolved data) announce) in
     sources (browser w') =
       sources (browser w) ++
         [mkSource (listen_url (Resp.sessionId data)) (length (closures (hooks w))) false] /\
     live_source w' = Some (length (sources (browser w))) /\
     timeouts (browser w') = timeouts (browser w)).
Proof.
  intros Hreach. apply reachable_settled in Hreach. rename Hreach into Hw.
  split; [|split; [|intros data announce; apply first_connection; exact Hw]].
  { intros es s cl Hes Hopen Hcl Hlt.
    rewrite (step_error w es s Hw Hes Hopen), (onerror_backoff w _ cl Hcl Hlt).
    reflexivity. }
  intros es Hlive Hlt r u t w1 w2.
  destruct (settled_live w es Hw Hlive) as (c & rt & Hc & Hcl & Hsrc).
  set (cl := Closure.mk (sessionId (state w)) r (Some es) rt) in Hcl.
  assert (Hw1 : w1 = exec (onerror c) w).
  { subst w1. rewrite (step_error w es _ Hw Hsrc eq_refl). reflexivity. }
  rewrite (onerror_backoff w c cl Hcl Hlt) in Hw1.
  assert (Hsid : sessionId (state w) <> "").
  { pose proof (settled_stream w Hw) as Hs. unfold stream_ready in Hs.
    rewrite Hc in Hs. apply Hs. }
  assert (Hs1 : settled w1) by (apply settled_step; exact Hw).
  set (cl1 := with_reconnectTimeout (Some t) cl).
  assert (Hcl1 : closures (hooks w1) !! c = Some cl1).
  { rewrite Hw1. simpl. rewrite list_lookup_alter_eq, Hcl. reflexivity. }
  assert (Ht1 : timeouts (browser w1) !! t = Some (mkTimeout (backoff r) c Pending)).
  { rewrite Hw1. simpl. apply lookup_snoc. }
  assert (Hsid1 : sessionId (state w1) <> "") by (rewrite Hw1; exact Hsid).
  assert (Hc1 : stream_cleanup (hooks w1) = Some c) by (rewrite Hw1; exact Hc).
  destruct (fire_in_live_closure w1 c t cl1 _ Hs1 Hsid1 Hc1 Hcl1 Ht1 eq_refl eq_refl)
    as (Hst2 & Hsrc2 & Htm2 & Hlive2).
  fold w2 in Hst2, Hsrc2, Htm2, Hlive2.
  exists c. split; [exact Hc|]. rewrite Hst2, Hsrc2, Htm2, Hlive2.
  clear Hst2 Hsrc2 Htm2 Hlive2 Hs1 Hcl1 Ht1 Hsid1 Hc1.
  rewrite Hw1. simpl. unfold clear_held, close_held. simpl.
  subst t. rewrite alter_snoc, alter_snoc, length_alter. repeat split.
Qed.

(** ** A source outside the effect *)

(** C1 (what the code does).  After [short_outage] the counter is 1 and the
    page shows "Connected".  Two sources are open: number 9, held by the
    effect, and number 8, created by the callback of a timeout that no
    cleanup cleared ([onerror] had overwritten [reconnectTimeout] with the
    second timeout of that run) and that fired in the closure of a run already
    cleaned up, the one that captured the counter 3.  An error of source 9 is
    answered as the policy says, with one timeout of [min(1000 * 2^1, 30000)]
    = 2000 ms.  An error of source 8 is answered with one timeout of 8000 ms,
    the delay for the captured 3, although the counter is 1; when that
    timeout fires the counter becomes 2, and the callback leaves one more
    open source outside the effect. *)
Theorem stale_source_error_uses_captured_counter :
  reachable after_outage /\
  connectionRetries (state after_outage) = 1%N /\
  badge (state after_outage) = Connected /\
  live_source after_outage = Some 9 /\
  sources (browser after_outage) !! 8 = Some (mkSource "/api/listen/k3v9" 3 false) /\
  closures (hooks after_outage) !! 3 = Some (Closure.mk "k3v9" 3 (Some 8) (Some 4)) /\
  pending_timeouts after_outage = [] /\
  N.min (1000 * 2 ^ connectionRetries (state after_outage)) 30000 = 2000%N /\
  (let w := step after_outage (StreamError 9) in
   timeouts (browser w) = timeouts (browser after_outage) ++ [mkTimeout 2000 5 Pending]) /\
  (let w := step after_outage (StreamError 8) in
   connectionRetries (state w) = 1%N /\
   timeouts (browser w) = timeouts (browser after_outage) ++ [mkTimeout 8000 3 Pending]) /\
  (let w := run after_outage [StreamError 8; TimeoutFire 5] in
   connectionRetries (state w) = 2%N /\
   open_sources w =
     [mkSource "/api/listen/k3v9" 3 false; mkSource "/api/listen/k3v9" 6 false] /\
   live_source w = Some 11).
Proof.
  split; [apply reachable_run, reachable_paired|].
  vm_compute. repeat split.
Qed.

(** ** Exhausted retries *)

(** On the source held by the effect, an error with the counter at 5 or more
    clears the flag and schedules nothing: no timeout, no source. *)
Lemma exhausted_error_schedules_nothing (w : World) (es : nat) :
  reachable w ->
  live_source w = Some es ->
  (5 <= connectionRetries (state w))%N ->
  step w (StreamError es) =
    mkWorld (with_isConnected false (state w)) (hooks w)
      (with_console (console (browser w) ++ [LogError]) (browser w)).
Proof.
  intros Hreach Hlive Hge. apply reachable_settled in Hreach.
  destruct (settled_live w es Hreach Hlive) as (c & rt & _ & Hcl & Hsrc).
  rewrite (step_error w es _ Hreach Hsrc eq_refl). simpl owner.
  apply (onerror_exhausted w c _ Hcl). exact Hge.
Qed.

(** C2 (what the code does).  After [five_attempts] the counter is 5 and the
    effect holds source 10; an error of that source schedules nothing.  But
    the cleanup of the previous run cleared only the timeout that
    [reconnectTimeout] held (the third of that run, number 7), so the second
    one (number 6) is still pending.  When it fires, its callback runs in the
    closure that captured 4: the counter becomes 6, the effect runs again and
    opens a new source (12), and the callback's own source (11) stays open,
    outside any cleanup.  An error of source 11 is handled with the captured
    4, below 5, and schedules one more timeout; when that fires the counter
    becomes 7 and two more sources are created, and so on. *)
Theorem retries_resume_after_exhaustion :
  reachable exhausted /\
  connectionRetries (state exhausted) = 5%N /\
  live_source exhausted = Some 10 /\
  pending_timeouts exhausted = [mkTimeout 16000 4 Pending] /\
  (let w := step exhausted (StreamError 10) in
   timeouts (browser w) = timeouts (browser exhausted) /\
   sources (browser w) = sources (browser exhausted)) /\
  (let w := run exhausted [StreamError 10; TimeoutFire 6] in
   connectionRetries (state w) = 6%N /\
   badge (state w) = Reconnecting 6 /\
   open_sources w = [mkSource "/api/listen/k3v9" 4 false; mkSource "/api/listen/k3v9" 6 false] /\
   live_source w = Some 12 /\
   pending_timeouts w = []) /\
  (let w := run exhausted [StreamError 10; TimeoutFire 6; StreamError 11] in
   connectionRetries (state w) = 6%N /\
   pending_timeouts w = [mkTimeout 16000 4 Pending]) /\
  (let w := run exhausted [StreamError 10; TimeoutFire 6; StreamError 11; TimeoutFire 8] in
   connectionRetries (state w) = 7%N /\
   length (sources (browser w)) = (length (sources (browser exhausted)) + 4)%nat).
Proof.
  split; [apply reachable_run, reachable_paired|].
  vm_compute. repeat split.
Qed.

(** * Further properties of the component *)

(** ** Failure of the session request *)

(** X1.  When the request of [generateSession] fails, or its body cannot be
    read, the session id, the QR payload, the received list, the connection
    flag and the retry counter stay as they were; the only effects are the
    destructive "Failed to generate session" toast and [isGenerating] going
    back to false.  No effect runs: sources, timeouts and hooks are
    untouched.  Whatever the outcome, [isGenerating] is false afterwards. *)
Theorem generateSession_failure_keeps_session (w : World) :
  reachable w ->
  (let w' := step w (SessionSettled Rejected false) in
   state w' = with_isGenerating false (state w) /\
   hooks w' = hooks w /\
   browser w' = with_toasts (toasts (browser w) ++ [generate_failed]) (browser w)) /\
  (state (exec (generateSession Rejected) w) = with_isGenerating false (state w)) /\
  (forall o announce, isGenerating (state (step w (SessionSettled o announce))) = false).
Proof.
  intros Hreach. apply reachable_settled in Hreach.
  assert (Hstep : step w (SessionSettled Rejected false) =
                  exec (handle (SessionSettled Rejected false)) w).
  { apply step_idle; [exact Hreach|reflexivity]. }
  split; [|split].
  - cbv zeta. rewrite Hstep. repeat split.
  - reflexivity.
  - intros o announce. rewrite step_state. destruct o, announce; reflexivity.
Qed.

Lemma generateSession_failure_keeps_session_witness :
  sessionId (state (step paired (SessionSettled Rejected false))) = "k3v9" /\
  toasts (browser (step paired (SessionSettled Rejected false))) = [generate_failed].
Proof.
  destruct (generateSession_failure_keeps_session paired reachable_paired)
    as ((Hst & _ & Hb) & _).
  rewrite Hst, Hb. split; reflexivity.
Defined.

(** X2.  The failure branches of [refreshSession], with a session id set.
    When the validation request throws, [generateSession] is called and a
    successful creation replaces the session with no toast at all.  When the
    validation response is not OK and the creation request fails, the old
    session id and QR payload are kept, and both the destructive error toast
    and the "Session Refreshed" toast are shown, in that order.  When both
    requests fail, the session is kept and only the error toast is shown. *)
Theorem refreshSession_failure_branches (w : World) :
  sessionId (state w) <> "" ->
  let sid := sessionId (state w) in
  (forall data,
     let w' := exec (refreshSession sid Rejected (Resolved data)) w in
     state w' =
       mkState (Resp.sessionId data) (Resp.qrCode data) [] (isConnected (state w)) false 0 /\
     toasts (browser w') = toasts (browser w)) /\
  (let w' := exec (refreshSession sid (Resolved false) Rejected) w in
   state w' = with_isGenerating false (state w) /\
   toasts (browser w') = toasts (browser w) ++ [generate_failed; session_refreshed]) /\
  (let w' := exec (refreshSession sid Rejected Rejected) w in
   state w' = with_isGenerating false (state w) /\
   toasts (browser w') = toasts (browser w) ++ [generate_failed]).
Proof.
  intros Hsid sid.
  assert (Hf : falsy sid = false) by (apply falsy_false; exact Hsid).
  unfold refreshSession. rewrite Hf.
  repeat split; simpl; rewrite <- ?List.app_assoc; reflexivity.
Qed.

Lemma refreshSession_failure_branches_witness :
  sessionId (state paired) <> "" /\
  toasts (browser (exec (refreshSession (sessionId (state paired)) (Resolved false) Rejected)
                     paired)) = [generate_failed; session_refreshed].
Proof.
  assert (Hne : sessionId (state paired) <> "") by (vm_compute; discriminate).
  split; [exact Hne|].
  destruct (refreshSession_failure_branches paired Hne) as (_ & (_ & Ht) & _).
  rewrite Ht. reflexivity.
Defined.

(** ** Buttons *)

(** X3.  While a session request is in flight ([isGenerating]), a click on
    "New Session" or on "Refresh" does nothing: no request, no cell written.
    "Refresh" also does nothing when there is no session id.  Otherwise "New
    Session" sets [isGenerating] and sends exactly one [POST /api/session],
    and "Refresh" sends exactly one validation request and writes no cell.
    The interval tick is not held back by [isGenerating]. *)
Theorem buttons_wait_for_pending_request (w : World) :
  reachable w ->
  (isGenerating (state w) = true ->
   step w NewSessionClick = w /\ step w RefreshClick = w) /\
  (sessionId (state w) = "" -> step w RefreshClick = w) /\
  (isGenerating (state w) = false ->
   state (step w NewSessionClick) = with_isGenerating true (state w) /\
   fetches (browser (step w NewSessionClick)) =
     fetches (browser w) ++ [(POST, "/api/session")] /\
   (sessionId (state w) <> "" ->
    state (step w RefreshClick) = state w /\
    fetches (browser (step w RefreshClick)) =
      fetches (browser w) ++ [(GET, ("/api/session/" ++ sessionId (state w))%string)])) /\
  (sessionId (state w) <> "" ->
   fetches (browser (step w IntervalTick)) =
     fetches (browser w) ++ [(GET, ("/api/session/" ++ sessionId (state w))%string)]).
Proof.
  intros Hreach. pose proof (reachable_settled w Hreach) as Hw.
  assert (Hnew : step w NewSessionClick = exec (handle NewSessionClick) w).
  { apply step_idle; [exact Hw|]. apply (same_exec deps). cbn [handle]. frame. }
  assert (Href : step w RefreshClick = exec (handle RefreshClick) w).
  { apply step_idle; [exact Hw|]. apply (same_exec deps). cbn [handle].
    unfold refreshSession_begin. frame. }
  rewrite Hnew, Href. cbn [handle]. rewrite !exec_bind. simpl.
  split; [|split; [|split]].
  - intros Hgen. rewrite Hgen. split; reflexivity.
  - intros Hsid. unfold refreshSession_begin. apply falsy_spec in Hsid. rewrite Hsid.
    destruct (isGenerating (state w)); reflexivity.
  - intros Hgen. rewrite Hgen. simpl. repeat split.
    + unfold refreshSession_begin. apply falsy_false in H. rewrite H. reflexivity.
    + unfold refreshSession_begin. apply falsy_false in H. rewrite H. reflexivity.
  - intros Hsid.
    pose proof (tick_calls_refreshSession w Hw) as Htick.
    pose proof (settled_interval w Hw) as Hi. unfold interval_ready in Hi.
    apply falsy_false in Hsid. rewrite Hsid in Hi. rewrite Hi in Htick.
    rewrite Htick. unfold refreshSession_begin. simpl. rewrite Hsid. reflexivity.
Qed.

Lemma buttons_wait_for_pending_request_witness :
  isGenerating (state mount) = true /\
  step mount NewSessionClick = mount /\
  isGenerating (state paired) = false /\
  fetches (browser (step paired NewSessionClick)) =
    [(POST, "/api/session"); (POST, "/api/session")].
Proof.
  destruct (buttons_wait_for_pending_request mount reachable_mount) as (Hbusy & _).
  destruct (buttons_wait_for_pending_request paired reachable_paired) as (_ & _ & Hfree & _).
  assert (Hgen : isGenerating (state mount) = true) by reflexivity.
  assert (Hidle : isGenerating (state paired) = false) by reflexivity.
  destruct (Hbusy Hgen) as [Hnew _]. destruct (Hfree Hidle) as (_ & Hfetch & _).
  rewrite Hfetch. repeat split; assumption.
Defined.

(** X4.  The Copy button of a row hands the item's content to the clipboard
    as it is (no prefix is added, unlike Open).  When the write succeeds the
    "Copied" toast is shown; when it fails nothing is written and the
    destructive "Failed to copy to clipboard" toast is shown.  No cell
    changes in either case. *)
Theorem copy_button_copies_content (w : World) (k : nat) (item : Item.t) :
  receivedContent (state w) !! k = Some item ->
  (let w' := step w (CopyClick k true) in
   state w' = state w /\
   clipboard (browser w') = clipboard (browser w) ++ [Item.content item] /\
   toasts (browser w') = toasts (browser w) ++ [copied]) /\
  (let w' := step w (CopyClick k false) in
   state w' = state w /\
   clipboard (browser w') = clipboard (browser w) /\
   toasts (browser w') = toasts (browser w) ++ [copy_failed]).
Proof.
  intros Hk.
  assert (Hrow : rows (state w) !! k = Some (render_item item)).
  { unfold rows. rewrite lookup_map, Hk. reflexivity. }
  assert (Hrun : forall ok, exec (handle (CopyClick k ok)) w =
                            exec (copyToClipboard (Item.content item) ok) w).
  { intros ok. cbn [handle]. unfold on_row. rewrite exec_bind. simpl. rewrite Hrow.
    reflexivity. }
  split; cbv zeta.
  - pose proof (step_outputs w (CopyClick k true)) as Hout. unfold outputs in Hout.
    rewrite step_state. rewrite Hrun in *. injection Hout as Ht _ _ _ Hc.
    rewrite Ht, Hc. repeat split.
  - pose proof (step_outputs w (CopyClick k false)) as Hout. unfold outputs in Hout.
    rewrite step_state. rewrite Hrun in *. injection Hout as Ht _ _ _ Hc.
    rewrite Ht, Hc. repeat split.
Qed.

Lemma copy_button_copies_content_witness :
  receivedContent (state with_link) !! 0 =
    Some (Item.mk "4fzyo82mv" "example.com/a" "link" 1700000000000) /\
  clipboard (browser (step with_link (CopyClick 0 true))) = ["example.com/a"].
Proof.
  assert (H0 : receivedContent (state with_link) !! 0 =
               Some (Item.mk "4fzyo82mv" "example.com/a" "link" 1700000000000))
    by reflexivity.
  split; [exact H0|].
  destruct (copy_button_copies_content with_link 0 _ H0) as ((_ & Hc & _) & _).
  rewrite Hc. reflexivity.
Defined.

(** ** Messages and the cells *)

(** X5.  A message whose [type] is neither ["content"] nor ["heartbeat"] is
    dropped without a trace: in a reachable store the whole store (cells,
    toasts, console, sources, timeouts) is unchanged. *)
Theorem unknown_message_type_is_ignored
    (w : World) (es : nat) (random : string) (now : Z) (data : Data.t) :
  reachable w ->
  Data.type data <> "content" ->
  Data.type data <> "heartbeat" ->
  step w (StreamMessage es random now data) = w.
Proof.
  intros Hreach Hc Hh. apply reachable_settled in Hreach.
  rewrite step_message by exact Hreach.
  cbn [handle]. unfold on_source, exec.
  destruct (sources (browser w) !! es) as [s|]; [|reflexivity].
  destruct (closed s); [reflexivity|].
  unfold onmessage. apply String.eqb_neq in Hc, Hh. rewrite Hc, Hh. reflexivity.
Qed.

Lemma unknown_message_type_is_ignored_witness :
  step paired (StreamMessage 0 "0.x" 1700000000000 (Data.mk "ping" "text" "hello" [])) = paired.
Proof.
  apply (unknown_message_type_is_ignored paired 0); [exact reachable_paired| |]; discriminate.
Defined.

(** X6.  Only a successful session response changes the session id and the
    QR payload, and only content messages, the clear button and a successful
    session response change the received list.  In particular stream
    errors, reconnections, a stream opening, interval ticks and failed
    requests never drop or reorder received items. *)
Theorem cells_written_only_by_their_events (w : World) (e : Event) :
  (replaces_session e = false ->
   sessionId (state (step w e)) = sessionId (state w) /\
   qrCodeUrl (state (step w e)) = qrCodeUrl (state w)) /\
  (writes_list e = false ->
   receivedContent (state (step w e)) = receivedContent (state w)).
Proof.
  rewrite step_state. split.
  - intros He.
    assert (Hk : keeps (same (fun w => (sessionId (state w), qrCodeUrl (state w))))
                       (handle e)).
    { destruct e as [| | | |[data|] announce| | | | | | |];
        try discriminate He; cbn [handle]; frame.
      apply keeps_on_timeout; frame. }
    pose proof (same_exec _ _ w Hk) as H. simpl in H.
    injection H as H1 H2. auto.
  - intros He.
    apply (same_exec (fun w => receivedContent (state w))).
    destruct e as [| | | |[data|] announce| | | | | | |];
      try discriminate He; cbn [handle]; frame.
    apply keeps_on_timeout; frame.
Qed.

Lemma cells_written_only_by_their_events_witness :
  receivedContent (state (run with_link [StreamError 0; TimeoutFire 0])) =
    receivedContent (state with_link).
Proof.
  destruct (cells_written_only_by_their_events with_link (StreamError 0)) as [_ H1].
  destruct (cells_written_only_by_their_events (step with_link (StreamError 0)) (TimeoutFire 0))
    as [_ H2].
  simpl run. rewrite (H2 eq_refl), (H1 eq_refl). reflexivity.
Defined.

(** ** When the stream effect runs again *)

(** A render in which [sessionId] or [connectionRetries] differs from the
    last run of the stream effect: the cleanup closes the source and clears
    the timeout that the variables of the old closure hold, and, when there
    is a session id, the body opens one source in a new closure. *)
Lemma commit_rerun (w : World) (c : nat) (cl : Closure.t) :
  stream_cleanup (hooks w) = Some c ->
  closures (hooks w) !! c = Some cl ->
  stream_deps (hooks w) <> deps w ->
  let w' := exec commit w in
  let sid := sessionId (state w) in
  state w' = state w /\
  sources (browser w') =
    close_held cl (sources (browser w)) ++
      (if falsy sid then []
       else [mkSource (listen_url sid) (length (closures (hooks w))) false]) /\
  timeouts (browser w') = clear_held cl (timeouts (browser w)) /\
  stream_cleanup (hooks w') =
    (if falsy sid then None else Some (length (closures (hooks w)))) /\
  live_source w' = (if falsy sid then None else Some (length (sources (browser w)))).
Proof.
  intros Hc Hcl Hdeps w' sid. subst w'. unfold commit. rewrite exec_seq.
  set (w2 := exec stream_effect_commit w).
  pose proof (refresh_effect_commit_keeps w2) as Hk. unfold same in Hk.
  fold (exec refresh_effect_commit w2) in Hk.
  pose proof (f_equal snd Hk) as Hb3.
  pose proof (f_equal (fun p => snd (fst p)) Hk) as Hsc3.
  pose proof (f_equal (fun p => snd (fst (fst (fst p)))) Hk) as Hcl3.
  pose proof (f_equal (fun p => fst (fst (fst (fst p)))) Hk) as Hst3.
  cbv beta in Hb3, Hsc3, Hcl3, Hst3. unfold fst, snd in Hb3, Hsc3, Hcl3, Hst3.
  clear Hk. unfold live_source. rewrite Hb3, Hsc3, Hcl3, Hst3.
  subst w2. unfold deps in Hdeps.
  rewrite (stream_effect_commit_runs w Hdeps).
  unfold last_cleanup. rewrite Hc, (stream_effect_cleanup_run w c cl Hcl).
  set (w1 := mkWorld _ _ _).
  destruct (falsy sid) eqn:Hsid.
  - rewrite (stream_effect_idle w1 Hsid). simpl. rewrite app_nil_r. repeat split.
  - rewrite (stream_effect_connects w1 Hsid). simpl.
    rewrite lookup_snoc, length_close_held. repeat split.
Qed.

Lemma live_closure (w : World) (es : nat) :
  settled w ->
  live_source w = Some es ->
  exists c cl,
    stream_cleanup (hooks w) = Some c /\
    closures (hooks w) !! c = Some cl /\
    Closure.eventSource cl = Some es /\
    Closure.sessionId cl = sessionId (state w) /\
    Closure.connectionRetries cl = connectionRetries (state w) /\
    sources (browser w) !! es = Some (mkSource (listen_url (sessionId (state w))) c false) /\
    sessionId (state w) <> "".
Proof.
  intros Hw Hlive. destruct (settled_live w es Hw Hlive) as (c & rt & Hc & Hcl & Hsrc).
  exists c, (Closure.mk (sessionId (state w)) (connectionRetries (state w)) (Some es) rt).
  repeat split; try assumption.
  pose proof (settled_stream w Hw) as Hs. unfold stream_ready in Hs.
  rewrite Hc in Hs. apply Hs.
Qed.

(** X7.  When the source held by the effect opens, [isConnected] becomes
    true and the retry counter 0.  If the counter was already 0 nothing else
    happens.  If it was not (the source was opened by a retry), the change of
    the counter makes the effect run again: the source that has just opened
    is closed, the pending timeout held by the closure is cleared, and a new
    source is created for the same session, while the flag stays true. *)
Theorem stream_open_resets_counter (w : World) (es : nat) :
  reachable w ->
  live_source w = Some es ->
  let w' := step w (StreamOpen es) in
  isConnected (state w') = true /\
  connectionRetries (state w') = 0%N /\
  (connectionRetries (state w) = 0%N ->
   hooks w' = hooks w /\
   sources (browser w') = sources (browser w) /\
   timeouts (browser w') = timeouts (browser w)) /\
  (connectionRetries (state w) <> 0%N ->
   exists c cl,
     stream_cleanup (hooks w) = Some c /\
     closures (hooks w) !! c = Some cl /\
     sources (browser w') =
       alter close_source es (sources (browser w)) ++
         [mkSource (listen_url (sessionId (state w))) (length (closures (hooks w))) false] /\
     timeouts (browser w') = clear_held cl (timeouts (browser w)) /\
     live_source w' = Some (length (sources (browser w)))).
Proof.
  intros Hreach Hlive w'. pose proof (reachable_settled w Hreach) as Hw.
  destruct (live_closure w es Hw Hlive) as (c & cl & Hc & Hcl & Hes & _ & _ & Hsrc & Hsid).
  assert (Hh : exec (handle (StreamOpen es)) w = exec (onopen c) w).
  { cbn [handle]. unfold exec. rewrite (on_source_open w es _ _ Hsrc eq_refl). reflexivity. }
  assert (Hst : state w' = with_connectionRetries 0 (with_isConnected true (state w))).
  { subst w'. rewrite step_state, Hh. reflexivity. }
  rewrite Hst. split; [reflexivity|]. split; [reflexivity|]. split.
  - intros Hzero. subst w'. rewrite step_idle; [|exact Hw|].
    + rewrite Hh. repeat split.
    + rewrite Hh. unfold deps. simpl. rewrite Hzero. reflexivity.
  - intros Hpos. exists c, cl. split; [exact Hc|]. split; [exact Hcl|].
    subst w'. rewrite step_unfold, Hh.
    set (w1 := exec (onopen c) w).
    assert (Hdeps : stream_deps (hooks w1) <> deps w1).
    { subst w1. unfold deps. simpl. rewrite (settled_stream_deps w Hw). unfold deps.
      intros H. injection H as H. auto. }
    destruct (commit_rerun w1 c cl Hc Hcl Hdeps) as (_ & Hsrc' & Htm' & _ & Hlive').
    rewrite Hsrc', Htm', Hlive'. subst w1. simpl.
    apply falsy_false in Hsid. rewrite Hsid.
    unfold close_held. rewrite Hes. repeat split.
Qed.

Lemma stream_open_resets_counter_witness :
  live_source retried_once = Some 2 /\
  connectionRetries (state retried_once) = 1%N /\
  connectionRetries (state (step retried_once (StreamOpen 2))) = 0%N /\
  live_source (step retried_once (StreamOpen 2)) = Some 3.
Proof.
  assert (Hr : reachable retried_once) by (apply reachable_run, reachable_paired).
  assert (Hlive : live_source retried_once = Some 2) by reflexivity.
  destruct (stream_open_resets_counter retried_once 2 Hr Hlive) as (_ & Hzero & _ & Hpos).
  assert (Hne : connectionRetries (state retried_once) <> 0%N) by (vm_compute; discriminate).
  destruct (Hpos Hne) as (c & cl & _ & _ & _ & _ & Hl).
  rewrite Hl, Hzero. repeat split.
Defined.

(** X8.  When a session response brings a session id different from the
    current one while the effect holds a source: the old source is closed,
    the timeout held by the old closure is cleared, and (for a non-empty id)
    exactly one source is opened, for the new session; it is the one the
    effect holds afterwards, and the interval is set for the new id.  With an
    empty id in the response nothing is opened and the interval is removed. *)
Theorem new_session_replaces_stream
    (w : World) (es : nat) (data : Resp.t) (announce : bool) :
  reachable w ->
  live_source w = Some es ->
  Resp.sessionId data <> sessionId (state w) ->
  let w' := step w (SessionSettled (Resolved data) announce) in
  let sid := Resp.sessionId data in
  exists c cl,
    stream_cleanup (hooks w) = Some c /\
    closures (hooks w) !! c = Some cl /\
    timeouts (browser w') = clear_held cl (timeouts (browser w)) /\
    (sid <> "" ->
     sources (browser w') =
       alter close_source es (sources (browser w)) ++
         [mkSource (listen_url sid) (length (closures (hooks w))) false] /\
     live_source w' = Some (length (sources (browser w))) /\
     interval (hooks w') = Some (mkInterval 1800000 sid)) /\
    (sid = "" ->
     sources (browser w') = alter close_source es (sources (browser w)) /\
     live_source w' = None /\
     interval (hooks w') = None).
Proof.
  intros Hreach Hlive Hnew w' sid. pose proof (reachable_settled w Hreach) as Hw.
  destruct (live_closure w es Hw Hlive) as (c & cl & Hc & Hcl & Hes & _ & _ & _ & _).
  exists c, cl. split; [exact Hc|]. split; [exact Hcl|].
  pose proof (settled_step w (SessionSettled (Resolved data) announce) Hw) as Hw'.
  fold w' in Hw'.
  set (w1 := exec (handle (SessionSettled (Resolved data) announce)) w).
  assert (H1 : state w1 = mkState sid (Resp.qrCode data) [] (isConnected (state w)) false 0 /\
               hooks w1 = hooks w /\
               sources (browser w1) = sources (browser w) /\
               timeouts (browser w1) = timeouts (browser w)).
  { subst w1. destruct announce; repeat split. }
  destruct H1 as (Hst1 & Hhk1 & Hsrc1 & Htm1).
  assert (Hdeps : stream_deps (hooks w1) <> deps w1).
  { rewrite Hhk1, (settled_stream_deps w Hw). unfold deps. rewrite Hst1. simpl.
    intros H. injection H as H _. auto. }
  rewrite <- Hhk1 in Hc, Hcl.
  destruct (commit_rerun w1 c cl Hc Hcl Hdeps) as (Hst' & Hsrc' & Htm' & _ & Hlive').
  assert (Heq : exec commit w1 = w') by (subst w' w1; symmetry; apply step_unfold).
  rewrite Heq in Hst', Hsrc', Htm', Hlive'.
  rewrite Hst1 in Hsrc', Hlive'. simpl in Hsrc', Hlive'. fold sid in Hsrc', Hlive'.
  rewrite Hhk1, Hsrc1 in Hsrc'. rewrite Hsrc1 in Hlive'. rewrite Htm1 in Htm'.
  unfold close_held in Hsrc'. rewrite Hes in Hsrc'.
  pose proof (settled_interval w' Hw') as Hi. unfold interval_ready in Hi.
  rewrite Hst', Hst1 in Hi. simpl in Hi. fold sid in Hi.
  split; [exact Htm'|]. split.
  - intros Hsid. apply falsy_false in Hsid. rewrite Hsid in Hsrc', Hlive', Hi. auto.
  - intros Hsid. apply falsy_spec in Hsid. rewrite Hsid in Hsrc', Hlive', Hi.
    rewrite app_nil_r in Hsrc'. auto.
Qed.

Lemma new_session_replaces_stream_witness :
  live_source paired = Some 0 /\
  open_sources (step paired (SessionSettled (Resolved (Resp.mk "m7" "qr-m7")) false)) =
    [mkSource "/api/listen/m7" 1 false].
Proof.
  assert (Hlive : live_source paired = Some 0) by reflexivity.
  split; [exact Hlive|].
  assert (Hne : Resp.sessionId (Resp.mk "m7" "qr-m7") <> sessionId (state paired))
    by (vm_compute; discriminate).
  destruct (new_session_replaces_stream paired 0 (Resp.mk "m7" "qr-m7") false
              reachable_paired Hlive Hne) as (c & cl & _ & _ & _ & Hsome & _).
  assert (Hsid : Resp.sessionId (Resp.mk "m7" "qr-m7") <> "") by discriminate.
  destruct (Hsome Hsid) as (Hsrc & _ & _).
  unfold open_sources. rewrite Hsrc. reflexivity.
Defined.

(** X9.  The stream follows the session: in every reachable store, the
    effect holds a source exactly when there is a session id, that source is
    open, and its URL is [/api/listen/] followed by the current session id. *)
Theorem live_source_follows_session (w : World) :
  reachable w ->
  (sessionId (state w) = "" -> live_source w = None) /\
  (sessionId (state w) <> "" ->
   exists es c,
     live_source w = Some es /\
     sources (browser w) !! es =
       Some (mkSource ("/api/listen/" ++ sessionId (state w))%string c false)).
Proof.
  intros Hreach. apply reachable_settled in Hreach.
  pose proof (settled_stream w Hreach) as Hs. unfold stream_ready in Hs.
  unfold live_source. destruct (stream_cleanup (hooks w)) as [c|].
  - destruct Hs as [Hne (es & rt & Hcl & Hsrc)]. split; [contradiction|].
    intros _. exists es, c. rewrite Hcl. split; [reflexivity|exact Hsrc].
  - split; [reflexivity|contradiction].
Qed.

Lemma live_source_follows_session_witness :
  sessionId (state mount) = "" /\ live_source mount = None /\
  sessionId (state exhausted) <> "" /\
  exists es c, live_source exhausted = Some es /\
    sources (browser exhausted) !! es = Some (mkSource "/api/listen/k3v9" c false).
Proof.
  destruct (live_source_follows_session mount reachable_mount) as [Hnone _].
  assert (Hr : reachable exhausted) by (apply reachable_run, reachable_paired).
  destruct (live_source_follows_session exhausted Hr) as [_ Hsome].
  assert (H0 : sessionId (state mount) = "") by reflexivity.
  assert (H1 : sessionId (state exhausted) <> "") by (vm_compute; discriminate).
  split; [exact H0|]. split; [exact (Hnone H0)|]. split; [exact H1|].
  destruct (Hsome H1) as (es & c & Hl & Hs). exists es, c. split; [exact Hl|].
  rewrite Hs. reflexivity.
Defined.

(** ** The delays of the timeouts *)

#[local] Instance delays_kept_preorder : PreOrder delays_kept.
Proof.
  split.
  - intros w H. exact H.
  - intros w1 w2 w3 H12 H23 H. apply H23, H12, H.
Qed.

Lemma delays_kept_same {A} (m : M A) :
  keeps (same (fun w => timeouts (browser w))) m -> keeps delays_kept m.
Proof. intros Hm w H. rewrite (Hm w). exact H. Qed.

Lemma backoff_scheduled (r : N) :
  (r < 5)%N -> In (backoff r) [1000; 2000; 4000; 8000; 16000]%N.
Proof.
  intros Hr.
  assert (H : r = 0%N \/ r = 1%N \/ r = 2%N \/ r = 3%N \/ r = 4%N) by lia.
  destruct H as [->|[->|[->|[->| ->]]]]; vm_compute; tauto.
Qed.

Lemma alter_keeps_delays (f : Timeout -> Timeout) (t : nat) :
  (forall tm, delay (f tm) = delay tm) ->
  keeps delays_kept (modify_browser (fun b => with_timeouts (alter f t (timeouts b)) b)).
Proof.
  intros Hf w H. simpl. apply Forall_alter; [exact H|].
  intros tm _ Htm. unfold scheduled_delay in *. rewrite Hf. exact Htm.
Qed.

Lemma clearTimeout_keeps_delays (t : nat) : keeps delays_kept (clearTimeout t).
Proof. apply alter_keeps_delays. reflexivity. Qed.

Lemma onerror_keeps_delays (c : nat) : keeps delays_kept (onerror c).
Proof.
  unfold onerror.
  apply keeps_bind; [typeclasses eauto|apply delays_kept_same; frame|intros _].
  apply keeps_bind; [typeclasses eauto|apply delays_kept_same; frame|intros _].
  apply keeps_with_closure; [typeclasses eauto|]. intros cl.
  destruct (Closure.connectionRetries cl <? 5)%N eqn:Hlt.
  - apply N.ltb_lt in Hlt.
    apply keeps_bind; [typeclasses eauto|apply delays_kept_same; frame|intros _].
    apply keeps_bind; [typeclasses eauto| |intros t; apply delays_kept_same; frame].
    intros w H. simpl. apply Forall_app. split; [exact H|].
    constructor; [|constructor]. apply backoff_scheduled. exact Hlt.
  - apply keeps_ret. typeclasses eauto.
Qed.

Lemma handle_keeps_delays (e : Event) : keeps delays_kept (handle e).
Proof.
  destruct e; cbn [handle]; try (apply delays_kept_same; frame; fail).
  - apply keeps_on_source; [typeclasses eauto|]. intros c. apply onerror_keeps_delays.
  - apply keeps_on_timeout; [typeclasses eauto| |].
    + apply alter_keeps_delays. reflexivity.
    + intros c. apply delays_kept_same. frame.
Qed.

Lemma commit_keeps_delays : keeps delays_kept commit.
Proof.
  unfold commit.
  apply keeps_bind; [typeclasses eauto| |intros _; apply delays_kept_same; frame].
  unfold stream_effect_commit.
  apply keeps_bind; [typeclasses eauto|apply keeps_get_state; typeclasses eauto|intros s].
  apply keeps_bind; [typeclasses eauto|apply keeps_get_hooks; typeclasses eauto|intros h].
  apply keeps_when; [typeclasses eauto|].
  apply keeps_bind; [typeclasses eauto| |intros _; apply delays_kept_same; frame].
  destruct (stream_cleanup h) as [c|]; [|apply keeps_ret; typeclasses eauto].
  unfold stream_effect_cleanup. apply keeps_with_closure; [typeclasses eauto|]. intros cl.
  apply keeps_bind; [typeclasses eauto|apply delays_kept_same; frame|intros _].
  destruct (Closure.reconnectTimeout cl);
    [apply clearTimeout_keeps_delays|apply keeps_ret; typeclasses eauto].
Qed.

(** X10.  Every timeout the page ever creates has one of the delays 1000,
    2000, 4000, 8000 or 16000 ms: [onerror] schedules only while the counter
    it reads is below 5, so the bound 30000 of [Math.min] is never the
    smaller argument. *)
Theorem timeout_delays_below_cap (w : World) (t : nat) (tm : Timeout) :
  reachable w ->
  timeouts (browser w) !! t = Some tm ->
  In (delay tm) [1000; 2000; 4000; 8000; 16000]%N /\ (delay tm < 30000)%N.
Proof.
  intros Hreach Ht.
  assert (Hall : Forall scheduled_delay (timeouts (browser w))).
  { clear Ht. induction Hreach as [|w e _ IH]; [constructor|].
    rewrite step_unfold. apply (commit_keeps_delays (exec (handle e) w)).
    apply (handle_keeps_delays e w). exact IH. }
  rewrite Forall_lookup in Hall. specialize (Hall t tm Ht). unfold scheduled_delay in Hall.
  split; [exact Hall|].
  simpl in Hall. destruct Hall as [<-|[<-|[<-|[<-|[<-|[]]]]]]; reflexivity.
Qed.

Lemma timeout_delays_below_cap_witness :
  exists tm, timeouts (browser exhausted) !! 7 = Some tm /\ (delay tm < 30000)%N.
Proof.
  assert (Hr : reachable exhausted) by (apply reachable_run, reachable_paired).
  exists (mkTimeout 16000 4 Cleared).
  assert (Ht : timeouts (browser exhausted) !! 7 = Some (mkTimeout 16000 4 Cleared))
    by reflexivity.
  split; [exact Ht|].
  exact (proj2 (timeout_delays_below_cap exhausted 7 _ Hr Ht)).
Defined.

(** ** One failure at a time: the retry bound holds *)

Lemma filter_nil_lookup {A} (f : A -> bool) (l : list A) (i : nat) (x : A) :
  List.filter f l = [] -> l !! i = Some x -> f x = false.
Proof.
  revert i. induction l as [|a l IH]; intros i Hnil Hi; [destruct i; discriminate|].
  simpl in Hnil. destruct (f a) eqn:Ha; [discriminate|].
  destruct i as [|i]; simpl in Hi.
  - injection Hi as <-. exact Ha.
  - apply (IH i); assumption.
Qed.

Lemma filter_at_most_one {A} (f : A -> bool) (l : list A) :
  (forall i j x y, l !! i = Some x -> l !! j = Some y ->
                   f x = true -> f y = true -> i = j) ->
  length (List.filter f l) <= 1.
Proof.
  induction l as [|a l IH]; intros Huniq; simpl; [lia|].
  destruct (f a) eqn:Ha.
  - assert (Hnil : List.filter f l = []).
    { destruct (List.filter f l) as [|b l'] eqn:Hfl; [reflexivity|exfalso].
      assert (Hb : In b (List.filter f l)) by (rewrite Hfl; left; reflexivity).
      apply filter_In in Hb as [Hin Hfb].
      apply list_elem_of_In, list_elem_of_lookup in Hin as [j Hj].
      specialize (Huniq 0 (S j) a b eq_refl Hj Ha Hfb). discriminate. }
    rewrite Hnil. simpl. lia.
  - apply IH. intros i j x y Hi Hj Hx Hy.
    specialize (Huniq (S i) (S j) x y Hi Hj Hx Hy). lia.
Qed.

Lemma pending_timeouts_nil (w : World) (t : nat) (tm : Timeout) :
  pending_timeouts w = [] ->
  timeouts (browser w) !! t = Some tm ->
  timer_state tm <> Pending.
Proof.
  intros Hnil Ht Hp. unfold pending_timeouts in Hnil.
  pose proof (filter_nil_lookup _ _ t tm Hnil Ht) as H. simpl in H.
  rewrite Hp in H. discriminate.
Qed.

(** The first run of the effect after a store without cleanup. *)
Lemma commit_first (w : World) :
  stream_cleanup (hooks w) = None ->
  stream_deps (hooks w) <> deps w ->
  let w' := exec commit w in
  let sid := sessionId (state w) in
  state w' = state w /\
  sources (browser w') =
    sources (browser w) ++
      (if falsy sid then []
       else [mkSource (listen_url sid) (length (closures (hooks w))) false]) /\
  timeouts (browser w') = timeouts (browser w) /\
  live_source w' = (if falsy sid then None else Some (length (sources (browser w)))).
Proof.
  intros Hc Hdeps w' sid. subst w'. unfold commit. rewrite exec_seq.
  set (w2 := exec stream_effect_commit w).
  pose proof (refresh_effect_commit_keeps w2) as Hk. unfold same in Hk.
  fold (exec refresh_effect_commit w2) in Hk.
  pose proof (f_equal snd Hk) as Hb3.
  pose proof (f_equal (fun p => snd (fst p)) Hk) as Hsc3.
  pose proof (f_equal (fun p => snd (fst (fst (fst p)))) Hk) as Hcl3.
  pose proof (f_equal (fun p => fst (fst (fst (fst p)))) Hk) as Hst3.
  cbv beta in Hb3, Hsc3, Hcl3, Hst3. unfold fst, snd in Hb3, Hsc3, Hcl3, Hst3.
  clear Hk. unfold live_source. rewrite Hb3, Hsc3, Hcl3, Hst3.
  subst w2. unfold deps in Hdeps.
  rewrite (stream_effect_commit_runs w Hdeps).
  assert (Hlast : exec (last_cleanup w) w = w).
  { unfold last_cleanup. rewrite Hc. reflexivity. }
  rewrite Hlast.
  destruct (falsy sid) eqn:Hsid.
  - rewrite (stream_effect_idle w Hsid). simpl. rewrite app_nil_r. repeat split.
  - rewrite (stream_effect_connects w Hsid). simpl.
    rewrite lookup_snoc. repeat split.
Qed.

Lemma tidy_quiet (w w' : World) :
  tidy w ->
  settled w' ->
  machinery w' = machinery w ->
  connectionRetries (state w') = connectionRetries (state w) ->
  tidy w'.
Proof.
  intros [Hs Hc Hsrc Htm] Hs' Hm Hr. injection Hm as Hhk Hsr Ht.
  split.
  - exact Hs'.
  - rewrite Hr. exact Hc.
  - unfold live_source. rewrite Hsr, Hhk. exact Hsrc.
  - rewrite Ht, Hhk, Hr. exact Htm.
Qed.

Lemma clear_timer_not_pending (tm : Timeout) : timer_state (clear_timer tm) <> Pending.
Proof. unfold clear_timer. simpl. destruct (timer_state tm); discriminate. Qed.

(** After the cleanup of the closure that holds the only pending timeout,
    nothing is pending. *)
Lemma clear_held_spent (cl : Closure.t) (tms : list Timeout) :
  (forall t tm, tms !! t = Some tm -> timer_state tm = Pending ->
                Closure.reconnectTimeout cl = Some t) ->
  forall t tm, clear_held cl tms !! t = Some tm -> timer_state tm <> Pending.
Proof.
  intros Hheld t tm Ht Hp. unfold clear_held in Ht.
  destruct (Closure.reconnectTimeout cl) as [t0|] eqn:Hrt.
  - destruct (Nat.eq_dec t0 t) as [->|Hne].
    + rewrite list_lookup_alter_eq in Ht.
      destruct (tms !! t) as [tm0|]; [|discriminate]. injection Ht as <-.
      exact (clear_timer_not_pending tm0 Hp).
    + rewrite list_lookup_alter_ne in Ht by exact Hne.
      specialize (Hheld t tm Ht Hp). congruence.
  - specialize (Hheld t tm Ht Hp). discriminate.
Qed.

(** After the cleanup of the closure that holds the only open source, every
    source is closed. *)
Lemma close_held_closed (cl : Closure.t) (srcs : list Source) :
  (forall es s, srcs !! es = Some s -> closed s = false ->
                Closure.eventSource cl = Some es) ->
  forall es s, close_held cl srcs !! es = Some s -> closed s = true.
Proof.
  intros Hheld es s Hes. unfold close_held in Hes.
  destruct (closed s) eqn:Hcl; [reflexivity|exfalso].
  destruct (Closure.eventSource cl) as [es0|] eqn:Hev.
  - destruct (Nat.eq_dec es0 es) as [->|Hne].
    + rewrite list_lookup_alter_eq in Hes.
      destruct (srcs !! es) as [s0|]; [|discriminate]. injection Hes as <-.
      discriminate Hcl.
    + rewrite list_lookup_alter_ne in Hes by exact Hne.
      specialize (Hheld es s Hes Hcl). congruence.
  - specialize (Hheld es s Hes Hcl). discriminate.
Qed.

Lemma tidy_held_source (w : World) (c : nat) (cl : Closure.t) :
  tidy w ->
  stream_cleanup (hooks w) = Some c ->
  closures (hooks w) !! c = Some cl ->
  forall es s, sources (browser w) !! es = Some s -> closed s = false ->
               Closure.eventSource cl = Some es.
Proof.
  intros Hw Hc Hcl es s Hes Hopen.
  pose proof (tidy_sources w Hw es s Hes Hopen) as Hlive.
  unfold live_source in Hlive. rewrite Hc, Hcl in Hlive. exact Hlive.
Qed.

Lemma tidy_held_timeout (w : World) (c : nat) (cl : Closure.t) :
  tidy w ->
  stream_cleanup (hooks w) = Some c ->
  closures (hooks w) !! c = Some cl ->
  forall t tm, timeouts (browser w) !! t = Some tm -> timer_state tm = Pending ->
               Closure.reconnectTimeout cl = Some t.
Proof.
  intros Hw Hc Hcl t tm Ht Hp.
  destruct (tidy_timeouts w Hw t tm Ht Hp) as (_ & c' & cl' & Hc' & Hcl' & Hrt & _).
  congruence.
Qed.

Lemma settled_closure (w : World) (c : nat) :
  settled w ->
  stream_cleanup (hooks w) = Some c ->
  exists cl, closures (hooks w) !! c = Some cl.
Proof.
  intros Hw Hc. pose proof (settled_stream w Hw) as Hs. unfold stream_ready in Hs.
  rewrite Hc in Hs. destruct Hs as [_ (es & rt & Hcl & _)]. eauto.
Qed.

(** A render that runs the stream effect again, from a tidy store whose
    handler touched neither hooks, sources nor timeouts. *)
Lemma tidy_rerun (w w1 : World) :
  tidy w ->
  machinery w1 = machinery w ->
  (connectionRetries (state w1) <= 5)%N ->
  stream_deps (hooks w1) <> deps w1 ->
  settled (exec commit w1) ->
  tidy (exec commit w1).
Proof.
  intros Hw Hm Hr Hdeps Hs'. injection Hm as Hhk Hsr Ht.
  destruct (stream_cleanup (hooks w)) as [c|] eqn:Hc.
  - destruct (settled_closure w c (tidy_settled w Hw) Hc) as [cl Hcl].
    pose proof Hc as Hc1. pose proof Hcl as Hcl1. rewrite <- Hhk in Hc1, Hcl1.
    destruct (commit_rerun w1 c cl Hc1 Hcl1 Hdeps) as (Hst' & Hsrc' & Htm' & _ & Hlive').
    rewrite Hsr in Hsrc', Hlive'. rewrite Ht in Htm'.
    pose proof (close_held_closed cl _ (tidy_held_source w c cl Hw Hc Hcl)) as Hclosed.
    pose proof (clear_held_spent cl _ (tidy_held_timeout w c cl Hw Hc Hcl)) as Hspent.
    split.
    + exact Hs'.
    + rewrite Hst'. exact Hr.
    + intros es s Hes Hopen. rewrite Hsrc' in Hes. rewrite Hlive'.
      apply lookup_app_Some in Hes as [Hes|[Hge Hes]].
      * rewrite (Hclosed es s Hes) in Hopen. discriminate.
      * rewrite length_close_held in Hge, Hes.
        destruct (falsy (sessionId (state w1))); [destruct (es - _); discriminate|].
        destruct (es - length (sources (browser w))) as [|k] eqn:Hk; [|destruct k; discriminate].
        f_equal. lia.
    + intros t tm Htm Hp. rewrite Htm' in Htm. exfalso. exact (Hspent t tm Htm Hp).
  - assert (Hc1 : stream_cleanup (hooks w1) = None) by (rewrite Hhk; exact Hc).
    destruct (commit_first w1 Hc1 Hdeps) as (Hst' & Hsrc' & Htm' & Hlive').
    rewrite Hsr in Hsrc', Hlive'. rewrite Ht in Htm'.
    split.
    + exact Hs'.
    + rewrite Hst'. exact Hr.
    + intros es s Hes Hopen. rewrite Hsrc' in Hes. rewrite Hlive'.
      apply lookup_app_Some in Hes as [Hes|[Hge Hes]].
      * pose proof (tidy_sources w Hw es s Hes Hopen) as Hlive.
        unfold live_source in Hlive. rewrite Hc in Hlive. discriminate.
      * destruct (falsy (sessionId (state w1))); [destruct (es - _); discriminate|].
        destruct (es - length (sources (browser w))) as [|k] eqn:Hk; [|destruct k; discriminate].
        f_equal. lia.
    + intros t tm Htm Hp. rewrite Htm' in Htm. exfalso.
      destruct (tidy_timeouts w Hw t tm Htm Hp) as (_ & c & cl & Hc' & _). congruence.
Qed.

(** An event whose handler touches neither hooks, sources nor timeouts. *)
Lemma tidy_step_plain (w : World) (e : Event) :
  tidy w ->
  machinery (exec (handle e) w) = machinery w ->
  (connectionRetries (state (exec (handle e) w)) <= 5)%N ->
  tidy (step w e).
Proof.
  intros Hw Hm Hr.
  pose proof (settled_step w e (tidy_settled w Hw)) as Hs'.
  set (w1 := exec (handle e) w) in *.
  destruct (deps_cases (deps w1) (deps w)) as [Heq|Hne].
  - assert (Hstep : step w e = w1) by (apply step_idle; [apply Hw|exact Heq]).
    rewrite Hstep in *. apply (tidy_quiet w w1 Hw Hs' Hm).
    unfold deps in Heq. injection Heq as _ Heq. exact Heq.
  - rewrite step_unfold in *. fold w1 in Hs' |- *.
    apply (tidy_rerun w w1 Hw Hm Hr); [|exact Hs'].
    pose proof (f_equal (fun p => fst (fst p)) Hm) as Hhk. simpl in Hhk.
    rewrite Hhk, (settled_stream_deps w (tidy_settled w Hw)). auto.
Qed.

Lemma handle_machinery (e : Event) :
  match e with StreamError _ | TimeoutFire _ => False | _ => True end ->
  keeps (same machinery) (handle e).
Proof.
  destruct e; intros He; try contradiction; cbn [handle]; unfold refreshSession_begin; frame.
Qed.

Lemma handle_counter (w : World) (e : Event) :
  match e with TimeoutFire _ => False | _ => True end ->
  connectionRetries (state (exec (handle e) w)) = connectionRetries (state w) \/
  connectionRetries (state (exec (handle e) w)) = 0%N.
Proof.
  intros He.
  destruct e as [| | | |o announce| | | |es| |es|]; try contradiction.
  5: { destruct o, announce; [right|right|left|left]; reflexivity. }
  8: { cbn [handle]. unfold on_source, exec.
       destruct (sources (browser w) !! es) as [s|]; [|left; reflexivity].
       destruct (closed s); [left|right]; reflexivity. }
  all: left; apply (same_exec (fun w => connectionRetries (state w))).
  all: cbn [handle]; unfold refreshSession_begin; frame.
Qed.

Lemma tidy_sid (w : World) (c : nat) :
  settled w -> stream_cleanup (hooks w) = Some c -> sessionId (state w) <> "".
Proof.
  intros Hw Hc. pose proof (settled_stream w Hw) as Hs. unfold stream_ready in Hs.
  rewrite Hc in Hs. apply Hs.
Qed.

(** The timeout held by the effect's closure fires. *)
Lemma tidy_fire (w : World) (t : nat) (tm : Timeout) :
  tidy w ->
  timeouts (browser w) !! t = Some tm ->
  timer_state tm = Pending ->
  tidy (step w (TimeoutFire t)).
Proof.
  intros Hw Ht Hp.
  destruct (tidy_timeouts w Hw t tm Ht Hp) as (Hlt & c & cl & Hc & Hcl & Hrt & Hown).
  pose proof (tidy_settled w Hw) as Hs.
  destruct (fire_in_live_closure w c t cl tm Hs (tidy_sid w c Hs Hc) Hc Hcl Ht Hp Hown)
    as (Hst' & Hsrc' & Htm' & Hlive').
  pose proof (close_held_closed cl _ (tidy_held_source w c cl Hw Hc Hcl)) as Hclosed.
  split.
  - apply settled_step. exact Hs.
  - rewrite Hst'. simpl. lia.
  - intros es s Hes Hopen. rewrite Hsrc' in Hes. rewrite Hlive'.
    apply lookup_app_Some in Hes as [Hes|[Hge Hes]].
    + rewrite (Hclosed es s Hes) in Hopen. discriminate.
    + rewrite length_close_held in Hge, Hes.
      destruct (es - length (sources (browser w))) as [|[|k]] eqn:Hk; simpl in Hes.
      * injection Hes as <-. discriminate.
      * f_equal. lia.
      * discriminate.
  - intros t' tm' Ht' Hp'. exfalso. rewrite Htm' in Ht'.
    refine (clear_held_spent cl _ _ t' tm' Ht' Hp').
    intros i tmi Hi Hpi. destruct (Nat.eq_dec t i) as [->|Hne].
    + rewrite list_lookup_alter_eq in Hi.
      destruct (timeouts (browser w) !! i); [|discriminate].
      injection Hi as <-. discriminate.
    + rewrite list_lookup_alter_ne in Hi by exact Hne.
      exact (tidy_held_timeout w c cl Hw Hc Hcl i tmi Hi Hpi).
Qed.

(** The source held by the effect reports an error while nothing is pending
    and the counter is below 5. *)
Lemma tidy_error (w : World) (es : nat) (s : Source) :
  tidy w ->
  pending_timeouts w = [] ->
  sources (browser w) !! es = Some s ->
  closed s = false ->
  tidy (step w (StreamError es)).
Proof.
  intros Hw Hnone Hes Hopen. pose proof (tidy_settled w Hw) as Hs.
  pose proof (tidy_sources w Hw es s Hes Hopen) as Hlive.
  destruct (live_closure w es Hs Hlive) as (c & cl & Hc & Hcl & Hev & _ & Hr & Hsrc & _).
  assert (Hown : owner s = c) by (rewrite Hes in Hsrc; injection Hsrc as ->; reflexivity).
  pose proof (settled_step w (StreamError es) Hs) as Hs'.
  rewrite (step_error w es s Hs Hes Hopen), Hown in *.
  destruct (N.lt_ge_cases (connectionRetries (state w)) 5) as [Hlt|Hge].
  - rewrite <- Hr in Hlt. rewrite (onerror_backoff w c cl Hcl Hlt) in *. rewrite Hr in Hlt.
    split.
    + exact Hs'.
    + simpl. apply (tidy_counter w Hw).
    + intros es' s' Hes' Hopen'. simpl in Hes'.
      pose proof (tidy_sources w Hw es' s' Hes' Hopen') as Hl.
      unfold live_source in *. simpl. rewrite Hc in *.
      rewrite list_lookup_alter_eq, Hcl. rewrite Hcl in Hl. exact Hl.
    + intros t tm Ht Hp. simpl in Ht. simpl.
      apply lookup_app_Some in Ht as [Ht|[Hge Ht]].
      * exfalso. exact (pending_timeouts_nil w t tm Hnone Ht Hp).
      * destruct (t - length (timeouts (browser w))) as [|k] eqn:Hk; [|destruct k; discriminate].
        injection Ht as <-. split; [exact Hlt|].
        exists c, (with_reconnectTimeout (Some (length (timeouts (browser w)))) cl).
        split; [exact Hc|]. split; [rewrite list_lookup_alter_eq, Hcl; reflexivity|].
        split; [simpl; f_equal; lia|reflexivity].
  - rewrite <- Hr in Hge. rewrite (onerror_exhausted w c cl Hcl Hge) in *.
    apply (tidy_quiet w _ Hw Hs'); reflexivity.
Qed.

Lemma tidy_step (w : World) (e : Event) : tidy w -> polite w e -> tidy (step w e).
Proof.
  intros Hw Hpol.
  destruct e as [| | | |o announce| | | |es|es random now data|es|t].
  11: { (* a stream error *)
    simpl in Hpol.
    destruct (sources (browser w) !! es) as [s|] eqn:Hes.
    - destruct (closed s) eqn:Hcl; [|exact (tidy_error w es s Hw Hpol Hes Hcl)].
      apply tidy_step_plain; [exact Hw| |]; cbn [handle]; unfold exec, on_source;
        rewrite Hes, Hcl; [reflexivity|apply (tidy_counter w Hw)].
    - apply tidy_step_plain; [exact Hw| |]; cbn [handle]; unfold exec, on_source;
        rewrite Hes; [reflexivity|apply (tidy_counter w Hw)]. }
  11: { (* a timeout *)
    destruct (on_timeout_cases w t) as [(tm & Ht & Hp & _)|[_ Hsame]].
    - exact (tidy_fire w t tm Hw Ht Hp).
    - apply tidy_step_plain; [exact Hw| |]; cbn [handle]; rewrite Hsame;
        [reflexivity|apply (tidy_counter w Hw)]. }
  all: apply tidy_step_plain; [exact Hw| |].
  all: try (apply (same_exec machinery); apply handle_machinery; exact I).
  all: match goal with
       | |- (connectionRetries (state (exec (handle ?e) ?w0)) <= 5)%N =>
           destruct (handle_counter w0 e I) as [-> | ->];
           [apply (tidy_counter w0 Hw)|lia]
       end.
Qed.

Lemma tidy_mount : tidy mount.
Proof.
  split.
  - exact settled_mount.
  - vm_compute. discriminate.
  - intros es s Hes. destruct es; discriminate.
  - intros t tm Ht. destruct t; discriminate.
Qed.

Lemma politely_tidy (w : World) : reachable_politely w -> tidy w.
Proof.
  induction 1 as [|w e _ IH Hpol]; [exact tidy_mount|].
  apply tidy_step; assumption.
Qed.

Lemma politely_run (w : World) (es : list Event) :
  reachable_politely w -> polite_run w es -> reachable_politely (run w es).
Proof.
  revert w. induction es as [|e es IH]; intros w Hw Hes; [exact Hw|].
  destruct Hes as [He Hes]. rewrite run_cons. apply IH; [|exact Hes].
  constructor; assumption.
Qed.

(** X11.  If no source reports an error while a timeout is pending, then in
    every store the page reaches: the retry counter is at most 5, at most one
    source is open (the one the effect holds), and at most one timeout is
    pending.  So under that condition a sixth consecutive failure is not
    retried. *)
Theorem one_failure_at_a_time_bounds_retries (w : World) :
  reachable_politely w ->
  (connectionRetries (state w) <= 5)%N /\
  length (open_sources w) <= 1 /\
  length (pending_timeouts w) <= 1 /\
  (forall es s, sources (browser w) !! es = Some s -> closed s = false ->
                live_source w = Some es) /\
  ((connectionRetries (state w) = 5)%N -> pending_timeouts w = []).
Proof.
  intros Hreach. apply politely_tidy in Hreach. rename Hreach into Hw.
  split; [apply (tidy_counter w Hw)|]. split; [|split; [|split]].
  - unfold open_sources. apply filter_at_most_one.
    intros i j x y Hi Hj Hx Hy. apply negb_true_iff in Hx, Hy.
    pose proof (tidy_sources w Hw i x Hi Hx) as H1.
    pose proof (tidy_sources w Hw j y Hj Hy) as H2. congruence.
  - unfold pending_timeouts. apply filter_at_most_one.
    intros i j x y Hi Hj Hx Hy.
    assert (Hpx : timer_state x = Pending) by (destruct (timer_state x); congruence).
    assert (Hpy : timer_state y = Pending) by (destruct (timer_state y); congruence).
    destruct (tidy_timeouts w Hw i x Hi Hpx) as (_ & c & cl & Hc & Hcl & Hrt & _).
    destruct (tidy_timeouts w Hw j y Hj Hpy) as (_ & c' & cl' & Hc' & Hcl' & Hrt' & _).
    congruence.
  - exact (tidy_sources w Hw).
  - intros Hfive. unfold pending_timeouts.
    destruct (List.filter _ _) as [|tm l] eqn:Hf; [reflexivity|exfalso].
    assert (Hin : In tm (List.filter
                           (fun t => match timer_state t with Pending => true | _ => false end)
                           (timeouts (browser w)))) by (rewrite Hf; left; reflexivity).
    apply filter_In in Hin as [Hin Hp].
    apply list_elem_of_In, list_elem_of_lookup in Hin as [t Ht].
    assert (Hpt : timer_state tm = Pending) by (destruct (timer_state tm); congruence).
    destruct (tidy_timeouts w Hw t tm Ht Hpt) as (Hlt & _). lia.
Qed.

Lemma one_failure_at_a_time_bounds_retries_witness :
  reachable_politely gave_up /\
  connectionRetries (state gave_up) = 5%N /\
  pending_timeouts gave_up = [].
Proof.
  assert (Hp : reachable_politely paired).
  { apply (politely_run mount [_]); [exact politely_mount|]. simpl. auto. }
  assert (Hg : reachable_politely gave_up).
  { apply politely_run; [exact Hp|]. vm_compute. repeat split. }
  split; [exact Hg|].
  destruct (one_failure_at_a_time_bounds_retries gave_up Hg) as (_ & _ & _ & _ & Hnone).
  assert (H5 : connectionRetries (state gave_up) = 5%N) by reflexivity.
  split; [exact H5|exact (Hnone H5)].
Defined.

(** ** What the header shows *)

(** X12.  The badge of the header shows "Connected" exactly when
    [isConnected]; otherwise "Waiting" when the counter is 0 and
    "Reconnecting... (r/5)" with the counter [r] when it is not.  When no
    source reports an error while a timeout is pending, the [r] shown is
    between 1 and 5. *)
Theorem badge_shows_retry_counter (w : World) :
  (badge (state w) = Connected <-> isConnected (state w) = true) /\
  (badge (state w) = Waiting <->
   isConnected (state w) = false /\ connectionRetries (state w) = 0%N) /\
  (forall r, badge (state w) = Reconnecting r <->
             isConnected (state w) = false /\ r = connectionRetries (state w) /\ (0 < r)%N) /\
  (reachable_politely w ->
   forall r, badge (state w) = Reconnecting r -> (1 <= r <= 5)%N).
Proof.
  assert (Hshape : forall r, badge (state w) = Reconnecting r <->
             isConnected (state w) = false /\ r = connectionRetries (state w) /\ (0 < r)%N).
  { intros r. unfold badge. destruct (isConnected (state w)).
    - split; [discriminate|intros [H _]; discriminate].
    - destruct (0 <? connectionRetries (state w))%N eqn:Hpos.
      + apply N.ltb_lt in Hpos. split.
        * intros [= <-]. auto.
        * intros (_ & -> & _). reflexivity.
      + apply N.ltb_ge in Hpos. split; [discriminate|]. intros (_ & -> & H). lia. }
  split; [|split; [|split]].
  - unfold badge. destruct (isConnected (state w)); [tauto|].
    destruct (0 <? connectionRetries (state w))%N; split; discriminate.
  - unfold badge. destruct (isConnected (state w)).
    + split; [discriminate|intros [H _]; discriminate].
    + destruct (0 <? connectionRetries (state w))%N eqn:Hpos.
      * apply N.ltb_lt in Hpos. split; [discriminate|]. intros [_ H]. lia.
      * apply N.ltb_ge in Hpos. split; [|reflexivity]. intros _. split; [reflexivity|lia].
  - exact Hshape.
  - intros Hreach r Hr. apply Hshape in Hr as (_ & -> & Hpos).
    pose proof (tidy_counter w (politely_tidy w Hreach)) as Hle. lia.
Qed.

Lemma badge_shows_retry_counter_witness :
  badge (state gave_up) = Reconnecting 5 /\ (1 <= 5 <= 5)%N.
Proof.
  assert (Hp : reachable_politely paired).
  { apply (politely_run mount [_]); [exact politely_mount|]. simpl. auto. }
  assert (Hg : reachable_politely gave_up).
  { apply politely_run; [exact Hp|]. vm_compute. repeat split. }
  assert (Hb : badge (state gave_up) = Reconnecting 5) by reflexivity.
  split; [exact Hb|].
  destruct (badge_shows_retry_counter gave_up) as (_ & _ & _ & Hbound).
  exact (Hbound Hg 5%N Hb).
Defined.

(** ** The clear button *)

(** X13.  The clear button exists only while the list is not empty.  With an
    empty list a click changes nothing and shows no toast; with items it
    empties the list and shows the "Cleared" toast once, after which a
    second click changes nothing. *)
Theorem clear_button_needs_items (w : World) :
  reachable w ->
  (receivedContent (state w) = [] -> step w ClearClick = w) /\
  (receivedContent (state w) <> [] ->
   receivedContent (state (step w ClearClick)) = [] /\
   toasts (browser (step w ClearClick)) = toasts (browser w) ++ [cleared]) /\
  step (step w ClearClick) ClearClick = step w ClearClick.
Proof.
  intros Hreach. pose proof (reachable_settled w Hreach) as Hw.
  assert (Hidle : forall w0, settled w0 -> step w0 ClearClick = exec (handle ClearClick) w0).
  { intros w0 Hw0. apply step_idle; [exact Hw0|]. apply (same_exec deps). cbn [handle]. frame. }
  assert (Hempty : forall w0, settled w0 -> receivedContent (state w0) = [] ->
                              step w0 ClearClick = w0).
  { intros w0 Hw0 He. rewrite (Hidle w0 Hw0). cbn [handle]. rewrite exec_bind. simpl.
    rewrite He. reflexivity. }
  assert (Hitems : receivedContent (state (step w ClearClick)) = []).
  { rewrite (Hidle w Hw). cbn [handle]. rewrite exec_bind. simpl.
    destruct (receivedContent (state w)) eqn:He; [exact He|reflexivity]. }
  split; [exact (Hempty w Hw)|]. split.
  - intros Hne. split; [exact Hitems|].
    rewrite (Hidle w Hw). cbn [handle]. rewrite exec_bind. simpl.
    destruct (receivedContent (state w)); [contradiction|reflexivity].
  - apply Hempty; [apply settled_step; exact Hw|exact Hitems].
Qed.

Lemma clear_button_needs_items_witness :
  step paired ClearClick = paired /\
  receivedContent (state with_link) <> [] /\
  receivedContent (state (step with_link ClearClick)) = [].
Proof.
  destruct (clear_button_needs_items paired reachable_paired) as (Hempty & _).
  assert (Hr : reachable with_link) by (apply reachable_run, reachable_paired).
  destruct (clear_button_needs_items with_link Hr) as (_ & Hitems & _).
  assert (Hne : receivedContent (state with_link) <> []) by (vm_compute; discriminate).
  split; [exact (Hempty eq_refl)|]. split; [exact Hne|exact (proj1 (Hitems Hne))].
Defined.

(** ** Loading the page *)

(** X14.  On load the page sends exactly one [POST /api/session], with
    [isGenerating] set, no source, no interval and the badge "Waiting".  If
    that request fails, the page shows the error toast and stays without a
    session: no source, no timeout and no interval exist, so nothing will
    retry it.  If it succeeds with a non-empty id, the cells take the
    response, exactly one source is opened for it, the interval is set, and
    the badge stays "Waiting" (only [onopen] makes it "Connected"). *)
Theorem first_load :
  (isGenerating (state mount) = true /\
   fetches (browser mount) = [(POST, "/api/session")] /\
   sources (browser mount) = [] /\
   interval (hooks mount) = None /\
   badge (state mount) = Waiting) /\
  (let w := step mount (SessionSettled Rejected false) in
   state w = initial_state /\
   toasts (browser w) = [generate_failed] /\
   sources (browser w) = [] /\
   timeouts (browser w) = [] /\
   interval (hooks w) = None /\
   fetches (browser w) = [(POST, "/api/session")]) /\
  (forall data,
     Resp.sessionId data <> "" ->
     let w := step mount (SessionSettled (Resolved data) false) in
     state w = mkState (Resp.sessionId data) (Resp.qrCode data) [] false false 0 /\
     sources (browser w) = [mkSource (listen_url (Resp.sessionId data)) 0 false] /\
     timeouts (browser w) = [] /\
     interval (hooks w) = Some (mkInterval 1800000 (Resp.sessionId data)) /\
     toasts (browser w) = [] /\
     badge (state w) = Waiting).
Proof.
  split; [repeat split|]. split; [repeat split|].
  intros data Hsid w.
  destruct (first_connection mount data false settled_mount eq_refl Hsid) as (Hsrc & _ & Htm).
  fold w in Hsrc, Htm.
  assert (Hst : state w = mkState (Resp.sessionId data) (Resp.qrCode data) [] false false 0).
  { subst w. rewrite step_state. reflexivity. }
  pose proof (settled_step mount (SessionSettled (Resolved data) false) settled_mount) as Hw.
  fold w in Hw. pose proof (settled_interval w Hw) as Hi. unfold interval_ready in Hi.
  rewrite Hst in Hi. simpl in Hi. apply falsy_false in Hsid. rewrite Hsid in Hi.
  pose proof (step_outputs mount (SessionSettled (Resolved data) false)) as Hout.
  fold w in Hout. unfold outputs in Hout. injection Hout as Ht _ _ _ _.
  rewrite Hst. repeat split; assumption.
Qed.

Lemma first_load_witness :
  sources (browser paired) = [mkSource "/api/listen/k3v9" 0 false] /\
  interval (hooks paired) = Some (mkInterval 1800000 "k3v9").
Proof.
  destruct first_load as (_ & _ & Hok).
  assert (Hne : Resp.sessionId (Resp.mk "k3v9" "https://qr.example/k3v9") <> "")
    by discriminate.
  destruct (Hok _ Hne) as (_ & Hsrc & _ & Hi & _).
  split; [exact Hsrc|exact Hi].
Defined.

(** ** What leaves the page *)

#[local] Instance leaves_kept_preorder : PreOrder leaves_kept.
Proof.
  split.
  - intros w. split; auto.
  - intros w1 w2 w3 [Ha Hb] [Hc Hd]. split; auto.
Qed.

Lemma leaves_kept_same {A} (m : M A) :
  keeps (same (fun w => (windows (browser w), fetches (browser w)))) m ->
  keeps leaves_kept m.
Proof.
  intros Hm w. specialize (Hm w). unfold same in Hm. injection Hm as Hw Hf.
  split; intros H; [rewrite Hw|rewrite Hf]; exact H.
Qed.

Lemma openLink_keeps_leaves (url : string) : keeps leaves_kept (openLink url).
Proof.
  intros w. split; intros H; [|exact H].
  simpl. apply Forall_app. split; [exact H|]. constructor; [|constructor].
  split; [|reflexivity]. simpl.
  destruct (String.prefix "http" url) eqn:Hp; [exact Hp|].
  apply starts_with_http. exists ("s://" ++ url)%string. reflexivity.
Qed.

Lemma generateSession_begin_keeps_leaves : keeps leaves_kept generateSession_begin.
Proof.
  intros w. split; intros H; [exact H|].
  simpl. apply Forall_app. split; [exact H|]. constructor; [|constructor].
  left. reflexivity.
Qed.

Lemma refreshSession_begin_keeps_leaves (sid : string) :
  keeps leaves_kept (refreshSession_begin sid).
Proof.
  intros w. unfold refreshSession_begin. destruct (falsy sid) eqn:Hsid.
  - split; intros H; exact H.
  - split; intros H; [exact H|].
    simpl. apply Forall_app. split; [exact H|]. constructor; [|constructor].
    right. exists sid. split; [apply falsy_false; exact Hsid|reflexivity].
Qed.

Lemma handle_keeps_leaves (e : Event) : keeps leaves_kept (handle e).
Proof.
  destruct e as [| | |v|o announce| |k ok|k|es|es random now data|es|t]; cbn [handle].
  - apply keeps_bind; [typeclasses eauto|apply keeps_get_state; typeclasses eauto|intros s].
    apply keeps_when; [typeclasses eauto|apply generateSession_begin_keeps_leaves].
  - apply keeps_bind; [typeclasses eauto|apply keeps_get_state; typeclasses eauto|intros s].
    apply keeps_when; [typeclasses eauto|apply refreshSession_begin_keeps_leaves].
  - apply keeps_bind; [typeclasses eauto|apply keeps_get_hooks; typeclasses eauto|intros h].
    destruct (interval h);
      [apply refreshSession_begin_keeps_leaves|apply keeps_ret; typeclasses eauto].
  - unfold refreshSession_settle. destruct v as [ok|].
    + apply keeps_when; [typeclasses eauto|apply generateSession_begin_keeps_leaves].
    + apply generateSession_begin_keeps_leaves.
  - apply leaves_kept_same. frame.
  - apply leaves_kept_same. frame.
  - apply leaves_kept_same. frame.
  - apply keeps_on_row; [typeclasses eauto|]. intros r.
    destruct (open_button r);
      [apply openLink_keeps_leaves|apply keeps_ret; typeclasses eauto].
  - apply leaves_kept_same. frame.
  - apply leaves_kept_same. frame.
  - apply leaves_kept_same. frame.
  - apply leaves_kept_same. apply keeps_on_timeout; frame.
Qed.

Lemma commit_keeps_leaves : keeps leaves_kept commit.
Proof. apply leaves_kept_same. unfold commit. frame. Qed.

(** *** Streams *)

#[local] Instance streams_kept_preorder : PreOrder streams_kept.
Proof.
  split.
  - intros w H. exact H.
  - intros w1 w2 w3 H12 H23 H. apply H23, H12, H.
Qed.

Lemma streams_kept_same {A} (m : M A) :
  keeps (same (fun w => (closures (hooks w), sources (browser w)))) m ->
  keeps streams_kept m.
Proof.
  intros Hm w [Hcl Hsrc]. specialize (Hm w). unfold same in Hm. injection Hm as Hc Hs.
  split; [rewrite Hc|rewrite Hs]; assumption.
Qed.

Lemma close_held_known (cl : Closure.t) (l : list Source) :
  Forall known_stream l -> Forall known_stream (close_held cl l).
Proof.
  intros H. unfold close_held. destruct (Closure.eventSource cl) as [es|]; [|exact H].
  apply Forall_alter; [exact H|]. intros s _ Hs. exact Hs.
Qed.

Lemma connectToSession_keeps_streams (c : nat) : keeps streams_kept (connectToSession c).
Proof.
  intros w [Hcl Hsrc].
  destruct (closures (hooks w) !! c) as [cl|] eqn:Hc.
  - fold (exec (connectToSession c) w). rewrite (connectToSession_run w c cl Hc).
    assert (Hsid : named_closure cl).
    { rewrite Forall_lookup in Hcl. exact (Hcl c cl Hc). }
    split; simpl.
    + apply Forall_alter; [exact Hcl|]. intros cl' _ H. exact H.
    + apply Forall_app. split; [apply close_held_known; exact Hsrc|].
      constructor; [|constructor]. exists (Closure.sessionId cl). split; [exact Hsid|reflexivity].
  - unfold connectToSession, with_closure. rewrite Hc. simpl. split; assumption.
Qed.

Lemma onerror_keeps_streams (c : nat) : keeps streams_kept (onerror c).
Proof.
  unfold onerror.
  apply keeps_bind; [typeclasses eauto|apply streams_kept_same; frame|intros _].
  apply keeps_bind; [typeclasses eauto|apply streams_kept_same; frame|intros _].
  apply keeps_with_closure; [typeclasses eauto|]. intros cl.
  destruct (Closure.connectionRetries cl <? 5)%N; [|apply keeps_ret; typeclasses eauto].
  apply keeps_bind; [typeclasses eauto|apply streams_kept_same; frame|intros _].
  apply keeps_bind; [typeclasses eauto|apply streams_kept_same; frame|intros t].
  intros w [Hcl Hsrc]. split; [|exact Hsrc].
  simpl. apply Forall_alter; [exact Hcl|]. intros cl' _ H. exact H.
Qed.

Lemma reconnect_keeps_streams (c : nat) : keeps streams_kept (reconnect c).
Proof.
  unfold reconnect.
  apply keeps_bind; [typeclasses eauto|apply streams_kept_same; frame|intros _].
  apply connectToSession_keeps_streams.
Qed.

Lemma stream_effect_cleanup_keeps_streams (c : nat) :
  keeps streams_kept (stream_effect_cleanup c).
Proof.
  intros w [Hcl Hsrc].
  destruct (closures (hooks w) !! c) as [cl|] eqn:Hc.
  - fold (exec (stream_effect_cleanup c) w). rewrite (stream_effect_cleanup_run w c cl Hc).
    split; [exact Hcl|]. simpl. apply close_held_known. exact Hsrc.
  - unfold stream_effect_cleanup, with_closure. rewrite Hc. simpl. split; assumption.
Qed.

Lemma stream_effect_keeps_streams : keeps streams_kept stream_effect.
Proof.
  intros w [Hcl Hsrc]. fold (exec stream_effect w).
  destruct (falsy (sessionId (state w))) eqn:Hsid.
  - rewrite (stream_effect_idle w Hsid). split; assumption.
  - rewrite (stream_effect_connects w Hsid). apply falsy_false in Hsid.
    split; simpl; apply Forall_app; (split; [assumption|]); constructor; try constructor.
    + exact Hsid.
    + exists (sessionId (state w)). split; [exact Hsid|reflexivity].
Qed.

Lemma handle_keeps_streams (e : Event) : keeps streams_kept (handle e).
Proof.
  destruct e; cbn [handle]; try (apply streams_kept_same; frame; fail).
  - apply keeps_on_source; [typeclasses eauto|]. intros c. apply onerror_keeps_streams.
  - apply keeps_on_timeout; [typeclasses eauto|apply streams_kept_same; frame|].
    apply reconnect_keeps_streams.
Qed.

Lemma commit_keeps_streams : keeps streams_kept commit.
Proof.
  unfold commit.
  apply keeps_bind; [typeclasses eauto| |intros _; apply streams_kept_same; frame].
  unfold stream_effect_commit.
  apply keeps_bind; [typeclasses eauto|apply keeps_get_state; typeclasses eauto|intros s].
  apply keeps_bind; [typeclasses eauto|apply keeps_get_hooks; typeclasses eauto|intros h].
  apply keeps_when; [typeclasses eauto|].
  apply keeps_bind; [typeclasses eauto| |intros _].
  - destruct (stream_cleanup h) as [c|];
      [apply stream_effect_cleanup_keeps_streams|apply keeps_ret; typeclasses eauto].
  - apply keeps_bind; [typeclasses eauto|apply stream_effect_keeps_streams|intros _].
    apply streams_kept_same. frame.
Qed.

Lemma reachable_streams_known (w : World) : reachable w -> streams_known w.
Proof.
  intros Hreach. induction Hreach as [|w e _ IH].
  - split; constructor.
  - rewrite step_unfold.
    apply (commit_keeps_streams (exec (handle e) w)), (handle_keeps_streams e w), IH.
Qed.

(** X15.  Whatever happens, every window the page opens is opened with
    target ["_blank"] on a URL that starts with ["http"] (a content such as
    ["javascript:..."] is opened as ["https://javascript:..."]); every
    [fetch] the page sends is either [POST /api/session] or a [GET] of
    [/api/session/] followed by a session id that is not empty; and every
    [EventSource] the page creates, the ones of stale closures included, is
    on [/api/listen/] followed by a session id that is not empty.  These are
    the requests that the code of the component makes (lines 29, 50 and 86);
    the image of the QR code (line 262) is loaded by the browser from the
    [qrCode] of the server's response, whatever it is. *)
Theorem page_opens_and_requests_only_known_urls (w : World) :
  reachable w ->
  (forall u target, In (u, target) (windows (browser w)) ->
                    (exists rest, u = ("http" ++ rest)%string) /\ target = "_blank") /\
  (forall m u, In (m, u) (fetches (browser w)) ->
               (m = POST /\ u = "/api/session") \/
               (m = GET /\ exists sid, sid <> "" /\ u = ("/api/session/" ++ sid)%string)) /\
  (forall s, In s (sources (browser w)) ->
             exists sid, sid <> "" /\ url s = ("/api/listen/" ++ sid)%string).
Proof.
  intros Hreach.
  assert (Hall : Forall safe_window (windows (browser w)) /\
                 Forall known_request (fetches (browser w))).
  { induction Hreach as [|w e _ [IHw IHf]].
    - split; [constructor|]. repeat constructor.
    - rewrite step_unfold.
      destruct (handle_keeps_leaves e w) as [H1 H2].
      destruct (commit_keeps_leaves (exec (handle e) w)) as [H3 H4].
      split; [apply H3, H1, IHw|apply H4, H2, IHf]. }
  destruct (reachable_streams_known w Hreach) as [_ Hsrc].
  destruct Hall as [Hwin Hfet]. rewrite List.Forall_forall in Hwin, Hfet, Hsrc.
  split; [|split].
  - intros u target Hin. destruct (Hwin _ Hin) as [Hp Ht]. simpl in Hp, Ht.
    split; [apply starts_with_http; exact Hp|exact Ht].
  - intros m u Hin. destruct (Hfet _ Hin) as [H|(sid & Hsid & H)].
    + injection H as -> ->. left. auto.
    + injection H as -> ->. right. split; [reflexivity|]. exists sid. auto.
  - intros s Hin. exact (Hsrc s Hin).
Qed.

Lemma page_opens_and_requests_only_known_urls_witness :
  windows (browser (step with_link (OpenClick 0))) = [("https://example.com/a", "_blank")] /\
  (exists rest, "https://example.com/a" = ("http" ++ rest)%string) /\
  fetches (browser (step with_link (OpenClick 0))) = [(POST, "/api/session")] /\
  sources (browser (step with_link (OpenClick 0))) = [mkSource "/api/listen/k3v9" 0 false] /\
  (exists sid, sid <> "" /\ "/api/listen/k3v9" = ("/api/listen/" ++ sid)%string).
Proof.
  assert (Hr : reachable (step with_link (OpenClick 0))).
  { constructor. apply reachable_run, reachable_paired. }
  destruct (page_opens_and_requests_only_known_urls _ Hr) as (Hwin & _ & Hsrc).
  assert (Hw : windows (browser (step with_link (OpenClick 0))) =
               [("https://example.com/a", "_blank")]) by reflexivity.
  assert (Hs : sources (browser (step with_link (OpenClick 0))) =
               [mkSource "/api/listen/k3v9" 0 false]) by reflexivity.
  split; [exact Hw|].
  split; [apply (Hwin "https://example.com/a" "_blank"); rewrite Hw; left; reflexivity|].
  split; [reflexivity|]. split; [exact Hs|].
  apply (Hsrc (mkSource "/api/listen/k3v9" 0 false)). rewrite Hs. left. reflexivity.
Defined.
